(** * The Ray client proxier ([python/ray/util/client/server/proxier.py])

    A shallow embedding of the proxy manager, the unary driver servicer and
    the data-stream servicer, followed by the properties of the
    specification that were checked against them.

    Conventions of the embedding.
    - A Python call either returns, raises, or waits for another thread
      (a read of an unresolved [Future]); this is the type [outcome].
    - [self.servers] is a [dict]: keys are unique and iteration follows
      insertion order, so it is an association list whose update keeps the
      position of an existing key.
    - A [Future] is a shared single-assignment cell: the record stored in
      [servers] and the local variable [handle_ready] name the same cell.
      The cells live in a store and a record holds the cell's index.
    - What the operating system and the network answer (probe binds, process
      polls, command lines, channel readiness, backend replies) is an
      explicit argument of the function that asks.
    - Logging calls have no effect on the modelled state and are left out. *)

From Stdlib Require Import String List ZArith Bool Lia Arith.
From Stdlib Require Strings.Byte.
From Stdlib Require Lists.Finite.
Import ListNotations.
Open Scope string_scope.
Open Scope list_scope.

Set Implicit Arguments.

(** ** Python values and control *)

Module Py.

(** The exception classes that occur in the file.  [FuturesTimeoutError]
    is [concurrent.futures.TimeoutError], what [Future.result(timeout)]
    raises; [TimeoutError] is the builtin of that name. *)
Inductive exn : Type :=
| RuntimeError (msg : string)
| AssertionError (msg : string)
| IndexError
| StopIteration
| UnpicklingError
| RpcError
| FuturesTimeoutError
| TimeoutError.

Inductive outcome (A : Type) : Type :=
| Return (a : A)
| Raise (e : exn)
| Blocked.

Arguments Raise {A} e.
Arguments Blocked {A}.

Definition bind {A B : Type} (c : outcome A) (k : A -> outcome B) : outcome B :=
  match c with
  | Return a => k a
  | Raise e => Raise e
  | Blocked => Blocked
  end.

(** The interpreter decides whether the two timeout classes are one:
    from Python 3.11 on [concurrent.futures.TimeoutError] is an alias of
    the builtin, before that it derives from [Exception] only. *)
Record Interpreter : Type := { futures_timeout_is_builtin : bool }.

Definition py_before_3_11 : Interpreter := {| futures_timeout_is_builtin := false |}.
Definition py_3_11 : Interpreter := {| futures_timeout_is_builtin := true |}.

(** [except TimeoutError:] *)
Definition except_TimeoutError (py : Interpreter) (e : exn) : bool :=
  match e with
  | TimeoutError => true
  | FuturesTimeoutError => futures_timeout_is_builtin py
  | _ => false
  end.

(** *** [dict] with string keys *)

Definition dict (V : Type) : Type := list (string * V).

Section Dict.
Context {V : Type}.

(** [d.get(k)] *)
Fixpoint dict_get (k : string) (d : dict V) : option V :=
  match d with
  | [] => None
  | (k', v) :: rest => if String.eqb k k' then Some v else dict_get k rest
  end.

(** [d[k] = v] *)
Fixpoint dict_set (k : string) (v : V) (d : dict V) : dict V :=
  match d with
  | [] => [(k, v)]
  | (k', v') :: rest =>
      if String.eqb k k' then (k', v) :: rest else (k', v') :: dict_set k v rest
  end.

(** [del d[k]], for a key that is present *)
Fixpoint dict_del (k : string) (d : dict V) : dict V :=
  match d with
  | [] => []
  | (k', v') :: rest =>
      if String.eqb k k' then rest else (k', v') :: dict_del k rest
  end.

Definition keys (d : dict V) : list string := map fst d.
Definition values (d : dict V) : list V := map snd d.
End Dict.

End Py.

Import Py.

(** ** gRPC *)

Module Grpc.

Inductive StatusCode : Type :=
| OK | CANCELLED | UNKNOWN | INVALID_ARGUMENT | DEADLINE_EXCEEDED
| NOT_FOUND | ALREADY_EXISTS | PERMISSION_DENIED | RESOURCE_EXHAUSTED
| FAILED_PRECONDITION | ABORTED | OUT_OF_RANGE | UNIMPLEMENTED
| INTERNAL | UNAVAILABLE | DATA_LOSS | UNAUTHENTICATED.

(** The servicer context of one call: the metadata the client sent and the
    status code set so far. *)
Record Context : Type := {
  invocation_metadata : list (string * string);
  code : option StatusCode
}.

(** [context.set_code(c)]: a later call replaces an earlier one. *)
Definition set_code (c : StatusCode) (ctx : Context) : Context :=
  {| invocation_metadata := invocation_metadata ctx; code := Some c |}.

(** The status the client of a finished call observes: the code set on the
    context if any; otherwise [UNKNOWN] when the handler raised and [OK]
    when it returned. *)
Definition rpc_status {A : Type} (r : outcome A) (ctx : Context) : option StatusCode :=
  match r with
  | Blocked => None
  | Return _ => Some (match code ctx with Some c => c | None => OK end)
  | Raise _ => Some (match code ctx with Some c => c | None => UNKNOWN end)
  end.

End Grpc.

Import Grpc.

(** ** Module constants *)

Definition MIN_SPECIFIC_SERVER_PORT : Z := 23000.
Definition MAX_SPECIFIC_SERVER_PORT : Z := 24000.

(** [range(lo, hi)] *)
Definition range (lo hi : Z) : list Z :=
  map (fun i => (lo + Z.of_nat i)%Z) (seq 0 (Z.to_nat (hi - lo))).

(** ** [_get_client_id_from_context] *)

(** [{k: v for k, v in md}.get(key)]: of several entries with one key the
    last one stays. *)
Fixpoint metadata_get (key : string) (md : list (string * string)) : option string :=
  match md with
  | [] => None
  | (k, v) :: rest =>
      match metadata_get key rest with
      | Some v' => Some v'
      | None => if String.eqb key k then Some v else None
      end
  end.

Definition _get_client_id_from_context (context : Context) : string * Context :=
  let client_id :=
    match metadata_get "client_id" (invocation_metadata context) with
    | Some v => v           (* [x or ""] of the empty string is the empty string *)
    | None => ""
    end in
  if String.eqb client_id ""
  then (client_id, set_code INVALID_ARGUMENT context)
  else (client_id, context).

(** ** [SpecificServer] and [ProxyManager] *)

(** [ProcessInfo]: the launched child, known by the pid of [proc.process]. *)
Record ProcessInfo : Type := { pid : Z }.

Record SpecificServer : Type := {
  port : Z;
  process_handle_future : nat;    (* index of the cell in the future store *)
  channel : Z                     (* the channel to [localhost:<channel>] *)
}.

Record ProxyManager : Type := {
  servers : dict SpecificServer;
  _free_ports : list Z;
  future_store : list (option ProcessInfo)
}.

(** [ProxyManager.__init__] *)
Definition ProxyManager_init : ProxyManager :=
  {| servers := [];
     _free_ports := range MIN_SPECIFIC_SERVER_PORT MAX_SPECIFIC_SERVER_PORT;
     future_store := [] |}.

(** [futures.Future()] *)
Definition new_future (st : list (option ProcessInfo)) : nat * list (option ProcessInfo) :=
  (List.length st, st ++ [None]).

(** [fut.set_result(proc)] *)
Fixpoint set_result (fut : nat) (proc : ProcessInfo) (st : list (option ProcessInfo))
  : list (option ProcessInfo) :=
  match st, fut with
  | [], _ => []
  | _ :: rest, O => Some proc :: rest
  | c :: rest, S n => c :: set_result n proc rest
  end.

(** The state of a cell: [Some proc] once resolved. *)
Definition future_state (st : list (option ProcessInfo)) (fut : nat) : option ProcessInfo :=
  nth fut st None.

(** [SpecificServer.process_handle]: [Future.result()] without timeout. *)
Definition process_handle (st : list (option ProcessInfo)) (s : SpecificServer)
  : outcome ProcessInfo :=
  match future_state st (process_handle_future s) with
  | Some proc => Return proc
  | None => Blocked
  end.

(** [SpecificServer.wait_ready(timeout)]: with a timeout an unresolved
    future raises [concurrent.futures.TimeoutError], without one the caller
    waits. *)
Definition wait_ready (st : list (option ProcessInfo)) (s : SpecificServer)
           (timeout : option Z) : outcome unit :=
  match future_state st (process_handle_future s), timeout with
  | Some _, _ => Return tt
  | None, Some _ => Raise FuturesTimeoutError
  | None, None => Blocked
  end.

(** *** [_get_unused_port] *)

Definition unused_port_error : exn :=
  RuntimeError "Unable to succeed in selecting a random port.".

(** The [for _ in range(num_ports)] loop with the [raise] that follows it.
    [bind_ok p] tells whether the probe [s.bind(("", p))] succeeds. *)
Fixpoint probe_ports (bind_ok : Z -> bool) (n : nat) (free : list Z)
  : outcome Z * list Z :=
  match n with
  | O => (Raise unused_port_error, free)
  | S n' =>
      match free with
      | [] => (Raise IndexError, free)                 (* [pop(0)] of an empty list *)
      | p :: rest =>
          if bind_ok p then (Return p, rest)
          else probe_ports bind_ok n' (rest ++ [p])
      end
  end.

Definition _get_unused_port (bind_ok : Z -> bool) (m : ProxyManager)
  : outcome Z * ProxyManager :=
  let '(r, free) := probe_ports bind_ok (List.length (_free_ports m)) (_free_ports m) in
  (r, {| servers := servers m; _free_ports := free; future_store := future_store m |}).

(** *** [start_specific_server] *)

(** What one iteration of the wait loop sees: the answer of
    [proc.process.poll()] ([None] while the child runs) and of
    [psutil_proc.cmdline()]. *)
Record Observation : Type := {
  obs_poll : option Z;
  obs_cmdline : list string
}.

(** [len(cmd) > 3 and cmd[2] == "ray.util.client.server"] *)
Definition fence_crossed (cmd : list string) : bool :=
  if (3 <? List.length cmd)%nat then
    match nth_error cmd 2 with
    | Some c => String.eqb c "ray.util.client.server"
    | None => false
    end
  else false.

Inductive LoopExit : Type :=
| StartupFailed        (* the child exited: first [break] *)
| ReachedServer        (* the fence was crossed: second [break] *)
| NotIntrospected.     (* [psutil_proc is None]: the loop is not entered *)

(** The [while psutil_proc is not None] loop over what the successive
    iterations observe, one [time.sleep(0.5)] apart.  The result is the
    [break] taken and the number of sleeps before it; [None] when every
    listed observation sent the loop to sleep again. *)
Fixpoint wait_loop (obs : list Observation) (sleeps : nat) : option (LoopExit * nat) :=
  match obs with
  | [] => None
  | o :: later =>
      match obs_poll o with
      | Some _ => Some (StartupFailed, sleeps)
      | None =>
          if fence_crossed (obs_cmdline o) then Some (ReachedServer, sleeps)
          else wait_loop later (S sleeps)
      end
  end.

(** The surroundings of one [start_specific_server] call.  The launch
    ([start_ray_client_server], with the session directory it is given) is
    taken to return a process. *)
Record StartEnv : Type := {
  bind_ok : Z -> bool;                 (* the probe binds *)
  launched : ProcessInfo;              (* result of [start_ray_client_server] *)
  win32 : bool;                        (* [sys.platform == "win32"] *)
  observations : list Observation;     (* the wait loop's view of the child *)
  final_poll : option Z                (* [proc.process.poll()] at the [return] *)
}.

Definition with_servers (m : ProxyManager) (d : dict SpecificServer) : ProxyManager :=
  {| servers := d; _free_ports := _free_ports m; future_store := future_store m |}.

Definition with_future_store (m : ProxyManager) (st : list (option ProcessInfo))
  : ProxyManager :=
  {| servers := servers m; _free_ports := _free_ports m; future_store := st |}.

(** The [with self.server_lock] block of [start_specific_server]: the state
    other threads see when the lock is released. *)
Definition start_locked (bind_ok : Z -> bool) (client_id : string) (m : ProxyManager)
  : outcome (Z * nat) * ProxyManager :=
  match _get_unused_port bind_ok m with
  | (Return port, m1) =>
      let '(handle_ready, st) := new_future (future_store m1) in
      let specific_server :=
        {| port := port; process_handle_future := handle_ready; channel := port |} in
      (Return (port, handle_ready),
       with_future_store (with_servers m1 (dict_set client_id specific_server (servers m1))) st)
  | (Raise e, m1) => (Raise e, m1)
  | (Blocked, m1) => (Blocked, m1)
  end.

Definition start_specific_server {JobConfig : Type} (env : StartEnv)
           (client_id : string) (job_config : JobConfig) (m : ProxyManager)
  : outcome bool * ProxyManager :=
  match start_locked (bind_ok env) client_id m with
  | (Return (port, handle_ready), m1) =>
      let proc := launched env in
      let exit :=
        if win32 env then Some (NotIntrospected, O)
        else wait_loop (observations env) O in
      match exit with
      | None => (Blocked, m1)
      | Some _ =>
          (Return (match final_poll env with None => true | Some _ => false end),
           with_future_store m1 (set_result handle_ready proc (future_store m1)))
      end
  | (Raise e, m1) => (Raise e, m1)
  | (Blocked, m1) => (Blocked, m1)
  end.

(** *** [_get_server_for_client] and [get_channel] *)

Definition _get_server_for_client (client_id : string) (m : ProxyManager)
  : option SpecificServer :=
  dict_get client_id (servers m).

(** [channel_ready c] tells whether [grpc.channel_ready_future(c)] resolves
    within [CHECK_CHANNEL_TIMEOUT_S]. *)
Definition get_channel (channel_ready : Z -> bool) (client_id : string) (m : ProxyManager)
  : outcome (option Z) :=
  match _get_server_for_client client_id m with
  | None => Return None
  | Some server =>
      bind (wait_ready (future_store m) server None) (fun _ =>
      if channel_ready (channel server)
      then Return (Some (channel server))
      else Return None)
  end.

(** *** [_check_processes] *)

(** The [for client_id, specific_server in list(self.servers.items())] loop
    of one sweep.  [os_poll pid] is what [poll()] answers for that child. *)
Fixpoint sweep_items (os_poll : Z -> option Z)
         (items : list (string * SpecificServer)) (m : ProxyManager)
  : outcome unit * ProxyManager :=
  match items with
  | [] => (Return tt, m)
  | (client_id, specific_server) :: later =>
      match process_handle (future_store m) specific_server with
      | Return proc =>
          match os_poll (pid proc) with
          | Some _ =>
              sweep_items os_poll later
                {| servers := dict_del client_id (servers m);
                   _free_ports := _free_ports m ++ [port specific_server];
                   future_store := future_store m |}
          | None => sweep_items os_poll later m
          end
      | Raise e => (Raise e, m)
      | Blocked => (Blocked, m)
      end
  end.

(** One turn of the [while True] loop, up to the [time.sleep]. *)
Definition _check_processes (os_poll : Z -> option Z) (m : ProxyManager)
  : outcome unit * ProxyManager :=
  sweep_items os_poll (servers m) m.

(** *** [_cleanup] *)

(** The loop over [self.servers.values()]; the second component lists the
    pids that were sent [kill()], in order. *)
Fixpoint cleanup_loop (py : Interpreter) (st : list (option ProcessInfo))
         (srvs : list SpecificServer) (killed : list Z) : outcome unit * list Z :=
  match srvs with
  | [] => (Return tt, killed)
  | server :: later =>
      let body :=
        bind (wait_ready st server (Some 100%Z)) (fun _ =>     (* 0.1 s, in ms *)
        bind (process_handle st server) (fun proc =>
        Return (pid proc))) in
      match body with
      | Return p => cleanup_loop py st later (killed ++ [p])
      | Raise e =>
          if except_TimeoutError py e then cleanup_loop py st later killed
          else (Raise e, killed)
      | Blocked => (Blocked, killed)
      end
  end.

Definition _cleanup (py : Interpreter) (m : ProxyManager) : outcome unit * list Z :=
  cleanup_loop py (future_store m) (values (servers m)) [].

(** ** [RayletServicerProxy] *)

(** What a servicer call does to the rest of the system, in order. *)
Inductive Effect (Req : Type) : Type :=
| GetChannel (client_id : string)                  (* [proxy_manager.get_channel] *)
| StubCall (chan : Z) (method : string) (request : Req)
           (metadata : list (string * string)).    (* [getattr(stub, method)(...)] *)

Arguments GetChannel {Req} client_id.

(** The inbound unary methods of the [RayletDriver] service. *)
Inductive DriverRpc : Type :=
| rpc_Init | rpc_PrepRuntimeEnv | rpc_KVPut | rpc_KVGet | rpc_KVDel
| rpc_KVList | rpc_KVExists | rpc_ClusterInfo | rpc_Terminate
| rpc_GetObject | rpc_PutObject | rpc_WaitObject | rpc_Schedule.

Definition rpc_name (r : DriverRpc) : string :=
  match r with
  | rpc_Init => "Init"
  | rpc_PrepRuntimeEnv => "PrepRuntimeEnv"
  | rpc_KVPut => "KVPut"
  | rpc_KVGet => "KVGet"
  | rpc_KVDel => "KVDel"
  | rpc_KVList => "KVList"
  | rpc_KVExists => "KVExists"
  | rpc_ClusterInfo => "ClusterInfo"
  | rpc_Terminate => "Terminate"
  | rpc_GetObject => "GetObject"
  | rpc_PutObject => "PutObject"
  | rpc_WaitObject => "WaitObject"
  | rpc_Schedule => "Schedule"
  end.

Module RayletServicerProxy.
Section Servicer.

(** The messages are those of [ray_client_pb2], declared outside the file:
    a request type with the [type] field that [ClusterInfo] reads, the
    enum value [ClusterInfoType.PING], a response type with the
    constructor [ClusterInfoResponse(json=...)]. *)
Variable Request Response : Type.
Variable request_type : Request -> Z.
Variable PING : Z.
Variable ClusterInfoResponse : string -> Response.

(** The network: channel readiness and the answer of the backend to a
    unary call on a channel. *)
Variable channel_ready : Z -> bool.
Variable backend :
  Z -> string -> Request -> list (string * string) -> outcome Response.

(** The result of a servicer method: what it returns (Python's [None]
    is [None]), the context it leaves, and its effects. *)
Definition Served : Type :=
  (outcome (option Response) * Context * list (Effect Request))%type.

Definition reply (r : Served) : outcome (option Response) := fst (fst r).
Definition context_after (r : Served) : Context := snd (fst r).
Definition effects (r : Served) : list (Effect Request) := snd r.

Definition _call_inner_function (m : ProxyManager)
           (request : Request) (context : Context) (method : string) : Served :=
  let '(client_id, context) := _get_client_id_from_context context in
  match get_channel channel_ready client_id m with
  | Return None =>
      (Return None, set_code NOT_FOUND context, [GetChannel client_id])
  | Return (Some chan) =>
      let metadata := [("client_id", client_id)] in
      (bind (backend chan method request metadata) (fun r => Return (Some r)),
       context,
       [GetChannel client_id; StubCall chan method request metadata])
  | Raise e => (Raise e, context, [GetChannel client_id])
  | Blocked => (Blocked, context, [GetChannel client_id])
  end.

Definition Init m request context := _call_inner_function m request context "Init".

Definition PrepRuntimeEnv m request context :=
  _call_inner_function m request context "PrepRuntimeEnv".

Definition KVPut m request context := _call_inner_function m request context "KVPut".

Definition KVGet m request context := _call_inner_function m request context "KVGet".

Definition KVDel m request context := _call_inner_function m request context "KVGet".

Definition KVList m request context := _call_inner_function m request context "KVList".

Definition KVExists m request context :=
  _call_inner_function m request context "KVExists".

(** [json.dumps({})] *)
Definition json_dumps_empty_dict : string := "{}".

Definition ClusterInfo (m : ProxyManager) (request : Request) (context : Context)
  : Served :=
  if Z.eqb (request_type request) PING then
    let resp := ClusterInfoResponse json_dumps_empty_dict in
    (Return (Some resp), context, [])
  else _call_inner_function m request context "ClusterInfo".

Definition Terminate m req context := _call_inner_function m req context "Terminate".

Definition GetObject m request context :=
  _call_inner_function m request context "GetObject".

Definition PutObject m request context :=
  _call_inner_function m request context "PutObject".

Definition WaitObject m request context :=
  _call_inner_function m request context "WaitObject".

Definition Schedule m task context := _call_inner_function m task context "Schedule".

(** The registration of the servicer ([add_RayletDriverServicer_to_server])
    routes an inbound method to the servicer method of that name. *)
Definition serve (r : DriverRpc) : ProxyManager -> Request -> Context -> Served :=
  match r with
  | rpc_Init => Init
  | rpc_PrepRuntimeEnv => PrepRuntimeEnv
  | rpc_KVPut => KVPut
  | rpc_KVGet => KVGet
  | rpc_KVDel => KVDel
  | rpc_KVList => KVList
  | rpc_KVExists => KVExists
  | rpc_ClusterInfo => ClusterInfo
  | rpc_Terminate => Terminate
  | rpc_GetObject => GetObject
  | rpc_PutObject => PutObject
  | rpc_WaitObject => WaitObject
  | rpc_Schedule => Schedule
  end.

End Servicer.
End RayletServicerProxy.

(** ** The data stream *)

Definition bytes : Type := list Byte.byte.

Module DataServicerProxy.
Section Data.

(** [JobConfig] and [pickle] are imported: the class with its default
    instance [JobConfig()], [pickle.loads] (which may raise) and
    [pickle.dumps]. *)
Variable JobConfig : Type.
Variable JobConfig_default : JobConfig.
Variable pickle_loads : bytes -> outcome JobConfig.
Variable pickle_dumps : JobConfig -> bytes.

(** [ray_client_pb2.DataRequest] is declared outside the file.  The code
    reads its oneof [type] and, of the [init] variant, the one field
    [job_config]; [Fields] stands for the fields outside the oneof and
    [Other] for the content of the other variants. *)
Variable Fields Other : Type.

Record InitRequest : Type := { job_config : bytes }.

Inductive OneofType : Type :=
| type_init (init : InitRequest)
| type_other (name : string) (content : Other)
| type_unset.

Record DataRequest : Type := { fields : Fields; type : OneofType }.

(** The request iterator handed over by gRPC: the messages still to come
    and whether the stream then ends or breaks with [grpc.RpcError]. *)
Record Inbound : Type := { messages : list DataRequest; breaks : bool }.

(** [next(iterator)] *)
Definition next (it : Inbound) : outcome DataRequest * Inbound :=
  match messages it with
  | req :: later => (Return req, {| messages := later; breaks := breaks it |})
  | [] => (Raise (if breaks it then RpcError else StopIteration), it)
  end.

Definition ray_client_server_env_prep (job_config : JobConfig) : JobConfig :=
  job_config.

(** The body of [prepare_runtime_init_req] after [next(iterator)]: the
    message is changed in place and returned. *)
Definition rewrite_init (init_req : DataRequest) : outcome (DataRequest * JobConfig) :=
  match type init_req with
  | type_init req =>
      bind (match job_config req with
            | [] => Return JobConfig_default
            | _ :: _ => pickle_loads (job_config req)
            end) (fun job_config =>
      let new_job_config := ray_client_server_env_prep job_config in
      let modified_init_req := {| job_config := pickle_dumps new_job_config |} in
      Return ({| fields := fields init_req; type := type_init modified_init_req |},
              new_job_config))
  | type_other name _ =>
      Raise (AssertionError ("Received initial message of type " ++ name ++ ", not 'init'."))
  | type_unset =>
      Raise (AssertionError "Received initial message of type None, not 'init'.")
  end.

Definition prepare_runtime_init_req (iterator : Inbound)
  : outcome (DataRequest * JobConfig) * Inbound :=
  match next iterator with
  | (Return init_req, iterator') => (rewrite_init init_req, iterator')
  | (Raise e, iterator') => (Raise e, iterator')
  | (Blocked, iterator') => (Blocked, iterator')
  end.

(** *** The splice: [forward_streaming_requests] against the backend stream

    Two threads share the queue: the forwarder, which runs
    [forward_streaming_requests], and the backend stream, which reads
    [iter(queue.get, None)]. *)
Record Splice : Type := {
  to_forward : list DataRequest;        (* what the request iterator still yields *)
  forwarder_done : bool;                (* the sentinel has been put *)
  queue : list (option DataRequest);    (* the [Queue], head first *)
  delivered : list DataRequest;         (* what the backend stream has read *)
  backend_eof : bool                    (* the backend stream read the sentinel *)
}.

Inductive Actor : Type := Forwarder | Backend.

(** One step of a thread; [None] when it cannot move (it is finished, or
    [queue.get] waits on an empty queue). *)
Definition step (a : Actor) (s : Splice) : option Splice :=
  match a with
  | Forwarder =>
      if forwarder_done s then None
      else match to_forward s with
           | req :: later =>                                   (* [output_queue.put(req)] *)
               Some {| to_forward := later; forwarder_done := false;
                       queue := queue s ++ [Some req];
                       delivered := delivered s; backend_eof := backend_eof s |}
           | [] =>                                             (* [output_queue.put(None)] *)
               Some {| to_forward := []; forwarder_done := true;
                       queue := queue s ++ [None];
                       delivered := delivered s; backend_eof := backend_eof s |}
           end
  | Backend =>
      if backend_eof s then None
      else match queue s with
           | [] => None
           | Some req :: q =>
               Some {| to_forward := to_forward s; forwarder_done := forwarder_done s;
                       queue := q; delivered := delivered s ++ [req];
                       backend_eof := false |}
           | None :: q =>
               Some {| to_forward := to_forward s; forwarder_done := forwarder_done s;
                       queue := q; delivered := delivered s; backend_eof := true |}
           end
  end.

(** The threads run in the order the scheduler picks; a thread picked
    while it cannot move leaves the state as it is. *)
Fixpoint run (schedule : list Actor) (s : Splice) : Splice :=
  match schedule with
  | [] => s
  | a :: later => run later (match step a s with Some s' => s' | None => s end)
  end.

(** [forward_streaming_requests] run to its end without interference. *)
Definition forward_streaming_requests (grpc_input_generator : Inbound)
           (output_queue : list (option DataRequest)) : list (option DataRequest) :=
  output_queue ++ map Some (messages grpc_input_generator) ++ [None].

(** *** [Datapath] *)

Inductive Stream : Type :=
| Closed                                             (* [return] before the splice *)
| Spliced (chan : Z) (metadata : list (string * string)) (s : Splice).

(** The generator body up to [thread.start()] and [stub.Datapath(...)];
    the relay of the responses is not part of the model. *)
Definition Datapath (env : StartEnv) (channel_ready : Z -> bool)
           (request_iterator : Inbound) (context : Context) (m : ProxyManager)
  : outcome Stream * Context * ProxyManager :=
  let '(client_id, context) := _get_client_id_from_context context in
  if String.eqb client_id "" then (Return Closed, context, m)
  else
    match prepare_runtime_init_req request_iterator with
    | (Return (modified_init_req, job_config), request_iterator) =>
        let queue := [Some modified_init_req] in
        match start_specific_server env client_id job_config m with
        | (Return false, m) => (Return Closed, set_code ABORTED context, m)
        | (Return true, m) =>
            match get_channel channel_ready client_id m with
            | Return None => (Return Closed, set_code NOT_FOUND context, m)
            | Return (Some channel) =>
                (Return (Spliced channel [("client_id", client_id)]
                           {| to_forward := messages request_iterator;
                              forwarder_done := false;
                              queue := queue;
                              delivered := [];
                              backend_eof := false |}),
                 context, m)
            | Raise e => (Raise e, context, m)
            | Blocked => (Blocked, context, m)
            end
        | (Raise e, m) => (Raise e, context, m)
        | (Blocked, m) => (Blocked, context, m)
        end
    | (Raise StopIteration, _) =>
        (* a [StopIteration] that escapes into a generator body *)
        (Raise (RuntimeError "generator raised StopIteration"), context, m)
    | (Raise e, _) => (Raise e, context, m)
    | (Blocked, _) => (Blocked, context, m)
    end.

(** *** Notions of the specification *)

(** Decoding as the specification words it: the serialized job config "may
    be empty -- substitute a default". *)
Definition decode (C : bytes) : outcome JobConfig :=
  if Nat.eqb (List.length C) 0 then Return JobConfig_default else pickle_loads C.

Definition encode (job_config : JobConfig) : bytes := pickle_dumps job_config.

Definition env_prep (job_config : JobConfig) : JobConfig :=
  ray_client_server_env_prep job_config.

(** Everything that is or will be on the queue, in order. *)
Definition upcoming (s : Splice) : list (option DataRequest) :=
  queue s ++ (if forwarder_done s then [] else map Some (to_forward s) ++ [None]).

(** The splice carries the sequence [expected] to the backend stream. *)
Definition carries (expected : list DataRequest) (s : Splice) : Prop :=
  if backend_eof s then delivered s = expected
  else map Some (delivered s) ++ upcoming s = map Some expected ++ [None].

(** The forwarder runs to its end, then the backend stream reads. *)
Definition forwarder_first (s : Splice) : list Actor :=
  repeat Forwarder (S (List.length (to_forward s)))
  ++ repeat Backend (S (List.length (queue s) + List.length (to_forward s))).

End Data.
End DataServicerProxy.

(** ** The log stream *)

Module LogstreamServicerProxy.
Section Logs.

(** The requests of the log stream are those of [ray_client_pb2], declared
    outside the file; the servicer only passes them on. *)
Variable LogRequest : Type.

Inductive Stream : Type :=
| Closed                                             (* [return] before the splice *)
| Spliced (chan : Z) (metadata : list (string * string))
          (to_forward : list LogRequest)             (* left to the forwarder thread *)
          (queue : list (option LogRequest)).        (* the fresh [Queue()] *)

(** The [for i in range(5)] loop from attempt [i] on, with [attempts]
    attempts left.  Other threads work on the manager between two attempts:
    [view i] is the manager and [channel_ready i] the network as attempt
    [i] finds them.  The second component counts the [time.sleep(2)]. *)
Fixpoint retry (channel_ready : nat -> Z -> bool) (view : nat -> ProxyManager)
         (client_id : string) (attempts i : nat) : outcome (option Z) * nat :=
  match attempts with
  | O => (Return None, O)
  | S n =>
      match get_channel (channel_ready i) client_id (view i) with
      | Return (Some channel) => (Return (Some channel), O)
      | Return None =>
          let '(r, sleeps) := retry channel_ready view client_id n (S i) in
          (r, S sleeps)
      | Raise e => (Raise e, O)
      | Blocked => (Blocked, O)
      end
  end.

(** The generator body up to [thread.start()] and [stub.Logstream(...)]. *)
Definition Logstream (channel_ready : nat -> Z -> bool) (view : nat -> ProxyManager)
           (request_iterator : list LogRequest) (context : Context)
  : outcome Stream * Context * nat :=
  let '(client_id, context) := _get_client_id_from_context context in
  if String.eqb client_id "" then (Return Closed, context, O)
  else
    match retry channel_ready view client_id 5 0 with
    | (Return None, sleeps) => (Return Closed, set_code NOT_FOUND context, sleeps)
    | (Return (Some channel), sleeps) =>
        (Return (Spliced channel [("client_id", client_id)] request_iterator []),
         context, sleeps)
    | (Raise e, sleeps) => (Raise e, context, sleeps)
    | (Blocked, sleeps) => (Blocked, context, sleeps)
    end.

End Logs.
End LogstreamServicerProxy.

(** ** [_get_session_dir] *)

(** The part of the manager that [_get_session_dir] works on. *)
Record Session : Type := {
  redis_address : string;
  _session_dir : string
}.

(** [self.redis_address = redis_address] and
    [self._session_dir = session_dir or ""] of [ProxyManager.__init__]. *)
Definition Session_init (address : string) (session_dir : option string) : Session :=
  {| redis_address := address;
     _session_dir := match session_dir with Some d => d | None => "" end |}.

Inductive RayCall : Type :=
| ray_init (address : string)
| ray_shutdown.

(** [connect a] is the ["session_dir"] entry of what [ray.init(address=a)]
    returns.  The result is the directory, the manager afterwards and the
    calls made to [ray]. *)
Definition _get_session_dir (connect : string -> string) (s : Session)
  : string * Session * list RayCall :=
  if String.eqb (_session_dir s) "" then
    let session_dir := connect (redis_address s) in
    (session_dir,
     {| redis_address := redis_address s; _session_dir := session_dir |},
     [ray_init (redis_address s); ray_shutdown])
  else (_session_dir s, s, []).

(** ** Predicates of the statements *)

(** No port of the list passes the probe bind. *)
Definition all_taken (bind_ok : Z -> bool) (free : list Z) : bool :=
  forallb (fun p => negb (bind_ok p)) free.

(** The process future of a record is resolved. *)
Definition resolved (st : list (option ProcessInfo)) (s : SpecificServer) : bool :=
  match future_state st (process_handle_future s) with
  | Some _ => true
  | None => false
  end.

(** The process future of a record is resolved and its child has exited. *)
Definition exited (os_poll : Z -> option Z) (st : list (option ProcessInfo))
           (s : SpecificServer) : bool :=
  match future_state st (process_handle_future s) with
  | Some proc => match os_poll (pid proc) with Some _ => true | None => false end
  | None => false
  end.

(** The pids of the records whose process future is resolved, in order. *)
Definition resolved_pids (st : list (option ProcessInfo)) (srvs : list SpecificServer)
  : list Z :=
  flat_map (fun s => match future_state st (process_handle_future s) with
                     | Some proc => [pid proc]
                     | None => []
                     end) srvs.




(** The ports and records a manager accounts for. *)
Definition accounted (m : ProxyManager) : nat :=
  List.length (_free_ports m) + List.length (servers m).

(** Every port the manager knows of: the free ones, then those of the
    records. *)
Definition all_ports (m : ProxyManager) : list Z :=
  _free_ports m ++ map port (values (servers m)).

Definition in_pool (p : Z) : Prop :=
  (MIN_SPECIFIC_SERVER_PORT <= p < MAX_SPECIFIC_SERVER_PORT)%Z.

(** Client ids are unique, no port is held twice (by two records, or by a
    record and the free list), and every port is of the range. *)
Definition ports_ok (m : ProxyManager) : Prop :=
  NoDup (keys (servers m)) /\ NoDup (all_ports m) /\ Forall in_pool (all_ports m).

(** The effect calls a stub. *)
Definition is_stub_call {Req : Type} (e : Effect Req) : bool :=
  match e with
  | StubCall _ _ _ _ => true
  | GetChannel _ => false
  end.

(** What the threads do to the manager: a data stream starts a backend,
    the reaper sweeps. *)
Inductive Op : Type :=
| op_start (env : StartEnv) (client_id : string)
| op_sweep (os_poll : Z -> option Z).

Definition apply_op (m : ProxyManager) (o : Op) : ProxyManager :=
  match o with
  | op_start env client_id => snd (start_specific_server env client_id tt m)
  | op_sweep os_poll => snd (_check_processes os_poll m)
  end.

(** ** Concrete surroundings and states used by the closed statements *)

Module Sample.

(** Every probe bind succeeds; the child is up at the first look. *)
Definition env_up (child : Z) : StartEnv :=
  {| bind_ok := fun _ => true;
     launched := {| pid := child |};
     win32 := false;
     observations :=
       [{| obs_poll := None;
           obs_cmdline := ["python"; "-m"; "ray.util.client.server"; "--port"] |}];
     final_poll := None |}.

(** Every port of the range is taken by someone else. *)
Definition env_no_port : StartEnv :=
  {| bind_ok := fun _ => false;
     launched := {| pid := 1 |};
     win32 := false;
     observations := [];
     final_poll := None |}.

(** A manager whose backend for ["c1"] is up (pid 4001, port 23000). *)
Definition m_ready : ProxyManager :=
  snd (start_specific_server (env_up 4001) "c1" tt ProxyManager_init).

(** A manager seen between the lock block and [set_result] of a
    [start_specific_server] for ["a"]. *)
Definition m_pending : ProxyManager :=
  snd (start_locked (fun _ => true) "a" ProxyManager_init).


(** As [m_pending], with a second client ["b"] whose backend is up. *)
Definition m_pending_and_ready : ProxyManager :=
  snd (start_specific_server (env_up 4002) "b" tt m_pending).

(** The same two clients, the ready one first. *)
Definition m_ready_and_pending : ProxyManager :=
  snd (start_locked (fun _ => true) "a"
         (snd (start_specific_server (env_up 4002) "b" tt ProxyManager_init))).

(** Two clients whose backends are up (pids 4001 and 4002). *)
Definition m_two_ready : ProxyManager :=
  snd (start_specific_server (env_up 4002) "c2" tt m_ready).

(** The child 4001 has exited with code 1, every other child runs. *)
Definition poll_4001_exited (p : Z) : option Z :=
  if Z.eqb p 4001 then Some 1%Z else None.

(** Two starts for the one id ["a"], no sweep in between. *)
Definition m_started_twice : ProxyManager :=
  snd (start_specific_server (env_up 4002) "a" tt
         (snd (start_specific_server (env_up 4001) "a" tt ProxyManager_init))).

(** Messages for the servicers: a request is its [type] and a body. *)
Definition Request : Type := (Z * string)%type.
Definition Response : Type := string.
Definition PING : Z := 3.
Definition echo_backend (chan : Z) (method : string) (request : Request)
           (metadata : list (string * string)) : outcome Response :=
  Return (method ++ ":" ++ snd request)%string.

Definition with_client_id (cid : string) : Context :=
  {| invocation_metadata := [("client_id", cid)]; code := None |}.
Definition no_metadata : Context :=
  {| invocation_metadata := []; code := None |}.

(** Data requests: the job config is pickled as itself, the field outside
    the oneof is the request id. *)
Definition JobConfig : Type := bytes.
Definition loads (b : bytes) : outcome JobConfig := Return b.
Definition dumps (j : JobConfig) : bytes := j.
Definition DataRequest : Type := DataServicerProxy.DataRequest Z unit.
Definition init_msg (id : Z) (cfg : bytes) : DataRequest :=
  DataServicerProxy.Build_DataRequest id
    (DataServicerProxy.type_init unit (DataServicerProxy.Build_InitRequest cfg)).
Definition data_msg (id : Z) : DataRequest :=
  DataServicerProxy.Build_DataRequest id (DataServicerProxy.type_other "get" tt).
Definition inbound (l : list DataRequest) : DataServicerProxy.Inbound Z unit :=
  DataServicerProxy.Build_Inbound l false.

End Sample.

(** * Properties *)

(** ** The port pool *)

Section PortPool.

Variable bind_ok : Z -> bool.

(** When no probe succeeds, [n] rounds move the first [n] ports to the
    tail. *)
Lemma probe_ports_rotates :
  forall n free,
    (n <= List.length free)%nat ->
    all_taken bind_ok free = true ->
    probe_ports bind_ok n free = (Raise unused_port_error, skipn n free ++ firstn n free).
Proof.
  induction n as [|n IH]; intros free Hn Hall.
  - simpl. now rewrite app_nil_r.
  - destruct free as [|p rest]; [simpl in Hn; lia|].
    simpl in Hn. unfold all_taken in Hall. simpl in Hall.
    apply andb_true_iff in Hall as [Hp Hrest].
    apply negb_true_iff in Hp.
    simpl. rewrite Hp.
    rewrite IH.
    + rewrite skipn_app, firstn_app.
      replace (n - List.length rest)%nat with O by lia.
      simpl. rewrite app_nil_r, <- app_assoc. reflexivity.
    + rewrite length_app. simpl. lia.
    + unfold all_taken. rewrite forallb_app. simpl.
      rewrite Hp. simpl. now rewrite andb_true_r.
Qed.

Lemma probe_ports_exhausted :
  forall free,
    all_taken bind_ok free = true ->
    probe_ports bind_ok (List.length free) free = (Raise unused_port_error, free).
Proof.
  intros free Hall.
  rewrite probe_ports_rotates by (auto; lia).
  now rewrite skipn_all, firstn_all.
Qed.

(** A probe that returns a port takes exactly that port out of the list. *)
Lemma probe_ports_found :
  forall n free p free',
    probe_ports bind_ok n free = (Return p, free') ->
    List.length free = S (List.length free').
Proof.
  induction n as [|n IH]; intros free p free' H; simpl in H; [discriminate|].
  destruct free as [|q rest]; [discriminate|].
  destruct (bind_ok q).
  - inversion H; subst. reflexivity.
  - apply IH in H. rewrite length_app in H. simpl in *. lia.
Qed.

(** The loop never pops from an empty list and never waits. *)
Lemma probe_ports_outcome :
  forall n free,
    (n <= List.length free)%nat ->
    (exists p, fst (probe_ports bind_ok n free) = Return p) \/
    fst (probe_ports bind_ok n free) = Raise unused_port_error.
Proof.
  induction n as [|n IH]; intros free Hn; simpl; [now right|].
  destruct free as [|q rest]; [simpl in Hn; lia|].
  destruct (bind_ok q); [left; now exists q|].
  apply IH. rewrite length_app. simpl in *. lia.
Qed.

End PortPool.

Lemma manager_eta :
  forall m,
    {| servers := servers m; _free_ports := _free_ports m;
       future_store := future_store m |} = m.
Proof. now intros []. Qed.

Lemma get_unused_port_exhausted :
  forall bind_ok m,
    all_taken bind_ok (_free_ports m) = true ->
    _get_unused_port bind_ok m = (Raise unused_port_error, m).
Proof.
  intros bind_ok m H. unfold _get_unused_port.
  rewrite probe_ports_exhausted by assumption. now rewrite manager_eta.
Qed.

Lemma start_locked_exhausted :
  forall bind_ok client_id m,
    all_taken bind_ok (_free_ports m) = true ->
    start_locked bind_ok client_id m = (Raise unused_port_error, m).
Proof.
  intros. unfold start_locked. now rewrite get_unused_port_exhausted.
Qed.

Import DataServicerProxy.

(** C4, as amended.  When no port of the free list passes the probe bind
    (the empty list included), [_get_unused_port] raises
    [RuntimeError("Unable to succeed in selecting a random port.")] and
    leaves the manager as it was; [start_specific_server] lets the error
    through to its caller without installing a record; and [Datapath], the
    one caller, lets it through as well without setting a status code. *)
Theorem port_exhaustion_raises_RuntimeError :
  forall (JobConfig Fields Other : Type) (JobConfig_default : JobConfig)
         (pickle_loads : bytes -> outcome JobConfig)
         (pickle_dumps : JobConfig -> bytes)
         (env : StartEnv) (channel_ready : Z -> bool)
         (client_id : string) (job_config : JobConfig)
         (request_iterator : Inbound Fields Other)
         (context : Context) (m : ProxyManager),
    all_taken (bind_ok env) (_free_ports m) = true ->
    _get_unused_port (bind_ok env) m = (Raise unused_port_error, m) /\
    start_specific_server env client_id job_config m = (Raise unused_port_error, m) /\
    (fst (_get_client_id_from_context context) <> "" ->
     (exists r, fst (prepare_runtime_init_req JobConfig_default pickle_loads
                       pickle_dumps request_iterator) = Return r) ->
     Datapath JobConfig_default pickle_loads pickle_dumps env channel_ready
              request_iterator context m
     = (Raise unused_port_error, context, m)).
Proof.
  intros JC F O dflt loads dumps env cr cid jc it ctx m Hall.
  split; [now apply get_unused_port_exhausted|].
  split.
  - unfold start_specific_server. now rewrite start_locked_exhausted.
  - intros Hcid [[req jc'] Hprep].
    unfold Datapath.
    unfold _get_client_id_from_context in *.
    destruct (metadata_get "client_id" (invocation_metadata ctx)) as [v|];
      simpl in Hcid |- *.
    + destruct (String.eqb v "") eqn:E.
      * apply String.eqb_eq in E. simpl in Hcid. contradiction.
      * rewrite E.
        destruct (prepare_runtime_init_req dflt loads dumps it) as [r it'].
        simpl in Hprep. subst r.
        unfold start_specific_server. now rewrite start_locked_exhausted.
    + contradiction.
Qed.

(** The theorem at the full range with every port taken. *)
Lemma port_exhaustion_raises_RuntimeError_witness :
  start_specific_server Sample.env_no_port "c1" (nil : Sample.JobConfig)
                        ProxyManager_init
  = (Raise unused_port_error, ProxyManager_init).
Proof.
  apply (port_exhaustion_raises_RuntimeError
           (nil : Sample.JobConfig) Sample.loads Sample.dumps
           Sample.env_no_port (fun _ => true) "c1" (nil : Sample.JobConfig)
           (Sample.inbound []) Sample.no_metadata ProxyManager_init).
  vm_compute. reflexivity.
Defined.

(** C4, as stated, fails: with the whole range taken the data stream of a
    client ends with the [RuntimeError]; no status code is set, so the
    client observes [UNKNOWN], not [RESOURCE_EXHAUSTED]. *)
Lemma port_exhaustion_is_not_ResourceExhausted :
  let r := Datapath (nil : Sample.JobConfig) Sample.loads Sample.dumps
                    Sample.env_no_port (fun _ => true)
                    (Sample.inbound [Sample.init_msg 0 []])
                    (Sample.with_client_id "c1") ProxyManager_init in
  all_taken (bind_ok Sample.env_no_port) (_free_ports ProxyManager_init) = true /\
  fst (fst r) = Raise (RuntimeError "Unable to succeed in selecting a random port.") /\
  code (snd (fst r)) = None /\
  rpc_status (fst (fst r)) (snd (fst r)) = Some UNKNOWN /\
  rpc_status (fst (fst r)) (snd (fst r)) <> Some RESOURCE_EXHAUSTED.
Proof.
  vm_compute. repeat split; discriminate.
Qed.

(** ** The record map *)

Section DictFacts.

Context {V : Type}.

Lemma dict_get_None_keys :
  forall k (d : dict V), dict_get k d = None <-> ~ In k (keys d).
Proof.
  induction d as [|[k' v'] d IH]; simpl.
  - tauto.
  - destruct (String.eqb k k') eqn:E.
    + apply String.eqb_eq in E. subst. split; [discriminate|intros H; exfalso; auto].
    + apply String.eqb_neq in E. rewrite IH. split.
      * intros H [H1|H1]; [congruence|auto].
      * intros H H1. auto.
Qed.

Lemma dict_set_length_fresh :
  forall k v (d : dict V),
    dict_get k d = None -> List.length (dict_set k v d) = S (List.length d).
Proof.
  induction d as [|[k' v'] d IH]; simpl; intros H; [reflexivity|].
  destruct (String.eqb k k'); [discriminate|]. simpl. now rewrite IH.
Qed.

Lemma dict_set_length_present :
  forall k v old (d : dict V),
    dict_get k d = Some old -> List.length (dict_set k v d) = List.length d.
Proof.
  induction d as [|[k' v'] d IH]; simpl; intros H; [discriminate|].
  destruct (String.eqb k k'); [reflexivity|]. simpl. now rewrite IH.
Qed.

Lemma dict_set_keys_in :
  forall k (v : V) d x, In x (keys (dict_set k v d)) -> x = k \/ In x (keys d).
Proof.
  induction d as [|[k' v'] d IH]; simpl; intros x H.
  - destruct H as [H|[]]. now left.
  - destruct (String.eqb k k'); simpl in H.
    + now right.
    + destruct H as [H|H]; [right; now left|].
      apply IH in H. tauto.
Qed.

(** An update keeps the keys unique. *)
Lemma dict_set_NoDup :
  forall k (v : V) d, NoDup (keys d) -> NoDup (keys (dict_set k v d)).
Proof.
  induction d as [|[k' v'] d IH]; simpl; intros H.
  - constructor; [intros []|constructor].
  - inversion H as [|? ? Hnotin Hd]; subst.
    destruct (String.eqb k k') eqn:E; simpl.
    + constructor; assumption.
    + constructor; [|now apply IH].
      intros Hin. apply dict_set_keys_in in Hin as [->|Hin]; [|contradiction].
      now rewrite String.eqb_refl in E.
Qed.

Lemma dict_del_app_fresh :
  forall k (v : V) kept later,
    ~ In k (keys kept) -> dict_del k (kept ++ (k, v) :: later) = kept ++ later.
Proof.
  induction kept as [|[k' v'] kept IH]; simpl; intros later H.
  - now rewrite String.eqb_refl.
  - destruct (String.eqb k k') eqn:E.
    + apply String.eqb_eq in E. subst. exfalso. auto.
    + f_equal. apply IH. auto.
Qed.

Lemma filter_split_length :
  forall (f : V -> bool) (items : dict V),
    (List.length (filter (fun kv => negb (f (snd kv))) items)
     + List.length (filter f (values items)))%nat = List.length items.
Proof.
  induction items as [|[k v] items IH]; simpl; [reflexivity|].
  destruct (f v); simpl; lia.
Qed.

End DictFacts.

(** ** The reaper *)

Lemma sweep_items_resolved :
  forall os_poll st items kept free,
    NoDup (keys (kept ++ items)) ->
    forallb (resolved st) (values items) = true ->
    sweep_items os_poll items
      {| servers := kept ++ items; _free_ports := free; future_store := st |}
    = (Return tt,
       {| servers := kept ++ filter (fun kv => negb (exited os_poll st (snd kv))) items;
          _free_ports := free ++ map port (filter (exited os_poll st) (values items));
          future_store := st |}).
Proof.
  intros os_poll st.
  induction items as [|[cid s] later IH]; intros kept free Hnd Hres.
  - simpl. now rewrite !app_nil_r.
  - simpl in Hres. apply andb_true_iff in Hres as [Hs Hlater].
    unfold keys in Hnd. rewrite map_app in Hnd. simpl in Hnd.
    pose proof (NoDup_remove_1 _ _ _ Hnd) as Hnd1.
    pose proof (NoDup_remove_2 _ _ _ Hnd) as Hnotin.
    rewrite <- map_app in Hnd1.
    simpl. unfold process_handle, resolved, exited in *.
    destruct (future_state st (process_handle_future s)) as [proc|]; [|discriminate].
    simpl. destruct (os_poll (pid proc)) as [rc|]; simpl.
    + rewrite dict_del_app_fresh
        by (intros Hin; apply Hnotin; apply in_or_app; now left).
      rewrite (IH kept (free ++ [port s]) Hnd1 Hlater).
      now rewrite <- app_assoc.
    + replace (kept ++ (cid, s) :: later) with ((kept ++ [(cid, s)]) ++ later)
        by now rewrite <- app_assoc.
      rewrite IH.
      * now rewrite <- app_assoc.
      * unfold keys. rewrite <- app_assoc, map_app. exact Hnd.
      * exact Hlater.
Qed.

Lemma sweep_items_blocks :
  forall os_poll items m,
    forallb (resolved (future_store m)) (values items) = false ->
    fst (sweep_items os_poll items m) = Blocked.
Proof.
  intros os_poll.
  induction items as [|[cid s] later IH]; intros m H; simpl in H; [discriminate|].
  simpl. unfold process_handle, resolved in *.
  destruct (future_state (future_store m) (process_handle_future s)) as [proc|];
    [|reflexivity].
  simpl in H.
  destruct (os_poll (pid proc)); apply IH; exact H.
Qed.

(** A sweep over resolved futures only. *)
Lemma check_processes_returns :
  forall (os_poll : Z -> option Z) (m : ProxyManager),
    NoDup (keys (servers m)) ->
    forallb (resolved (future_store m)) (values (servers m)) = true ->
    _check_processes os_poll m
    = (Return tt,
       {| servers :=
            filter (fun kv => negb (exited os_poll (future_store m) (snd kv)))
                   (servers m);
          _free_ports :=
            _free_ports m
            ++ map port (filter (exited os_poll (future_store m)) (values (servers m)));
          future_store := future_store m |}).
Proof.
  intros os_poll m Hnd H.
  unfold _check_processes.
  rewrite <- (manager_eta m) at 2.
  change (servers m) with ([] ++ servers m) at 2.
  rewrite sweep_items_resolved; auto.
Qed.

(** C5, as amended.  A sweep takes the records in map order and, for each,
    first waits for its process future ([process_handle] is
    [Future.result()] without a timeout) and then polls the child.  When
    every record's future is resolved the sweep returns: exactly the records
    whose child has exited are removed, their ports are appended to the free
    list in map order, and the records of running children stay as they
    are.  When some record's future is unresolved the sweep waits on it. *)
Theorem reaper_sweep :
  forall (os_poll : Z -> option Z) (m : ProxyManager),
    NoDup (keys (servers m)) ->
    (forallb (resolved (future_store m)) (values (servers m)) = true ->
     _check_processes os_poll m
     = (Return tt,
        {| servers :=
             filter (fun kv => negb (exited os_poll (future_store m) (snd kv)))
                    (servers m);
           _free_ports :=
             _free_ports m
             ++ map port (filter (exited os_poll (future_store m)) (values (servers m)));
           future_store := future_store m |}))
    /\
    (forallb (resolved (future_store m)) (values (servers m)) = false ->
     fst (_check_processes os_poll m) = Blocked).
Proof.
  intros os_poll m Hnd. split; intros H.
  - now apply check_processes_returns.
  - now apply sweep_items_blocks.
Qed.

(** The theorem at two ready backends of which the first has exited: its
    record goes, its port 23000 joins the tail of the free list. *)
Lemma reaper_sweep_witness :
  _check_processes Sample.poll_4001_exited Sample.m_two_ready
  = (Return tt,
     {| servers :=
          [("c2", {| port := 23001; process_handle_future := 1; channel := 23001 |})];
        _free_ports := range 23002 24000 ++ [23000%Z];
        future_store := [Some {| pid := 4001 |}; Some {| pid := 4002 |}] |}).
Proof.
  assert (Hnd : NoDup (keys (servers Sample.m_two_ready))).
  { vm_compute. repeat constructor; simpl; intuition discriminate. }
  assert (Hres : forallb (resolved (future_store Sample.m_two_ready))
                         (values (servers Sample.m_two_ready)) = true).
  { vm_compute. reflexivity. }
  rewrite (proj1 (reaper_sweep Sample.poll_4001_exited Sample.m_two_ready Hnd) Hres).
  vm_compute. reflexivity.
Defined.

(** C5, as stated, fails: between the lock block of [start_specific_server]
    and its [set_result] the installed record has an unresolved future, and
    a sweep at that moment waits on it instead of passing it by. *)
Lemma reaper_blocks_on_unresolved_future :
  servers Sample.m_pending
  = [("a", {| port := 23000; process_handle_future := 0; channel := 23000 |})] /\
  future_state (future_store Sample.m_pending) 0 = None /\
  _check_processes (fun _ => None) Sample.m_pending = (Blocked, Sample.m_pending).
Proof.
  vm_compute. repeat split.
Qed.

(** ** Port accounting *)

(** The lock block of [start_specific_server] keeps the count of ports and
    records when the id is new and loses one when it replaces a record. *)
Lemma start_locked_accounted :
  forall bind_ok client_id m p f m',
    start_locked bind_ok client_id m = (Return (p, f), m') ->
    accounted m
    = (accounted m'
       + match dict_get client_id (servers m) with Some _ => 1 | None => 0 end)%nat.
Proof.
  intros bind_ok cid m p f m' H.
  unfold start_locked, _get_unused_port in H.
  destruct (probe_ports bind_ok (List.length (_free_ports m)) (_free_ports m))
    as [r free'] eqn:E.
  destruct r as [q| |]; try discriminate.
  simpl in H. inversion H; subst; clear H.
  apply probe_ports_found in E.
  unfold accounted. simpl. rewrite E.
  destruct (dict_get cid (servers m)) as [old|] eqn:G.
  - rewrite (dict_set_length_present _ _ _ G). lia.
  - rewrite (dict_set_length_fresh _ _ _ G). lia.
Qed.

(** A sweep that returns keeps the count. *)
Lemma sweep_accounted :
  forall os_poll m,
    NoDup (keys (servers m)) ->
    forallb (resolved (future_store m)) (values (servers m)) = true ->
    accounted (snd (_check_processes os_poll m)) = accounted m.
Proof.
  intros os_poll m Hnd Hres.
  rewrite (check_processes_returns os_poll m Hnd Hres).
  unfold accounted. simpl.
  rewrite length_app, length_map.
  pose proof (filter_split_length (exited os_poll (future_store m)) (servers m)).
  lia.
Qed.

(** C3 on the code.  The pool holds 1000 ports.  After two
    [start_specific_server] calls for the one id ["a"] (both children come
    up) ports and records add up to 999: the second call replaced the
    record that held port 23000 without putting the port back.  When both
    children have exited and the reaper has swept, no record is left and the
    free list has 999 ports, 23000 not among them. *)
Theorem overwritten_record_leaks_its_port :
  let swept := _check_processes (fun _ => Some 0%Z) Sample.m_started_twice in
  accounted ProxyManager_init = 1000%nat /\
  existsb (Z.eqb 23000) (_free_ports ProxyManager_init) = true /\
  servers Sample.m_started_twice
  = [("a", {| port := 23001; process_handle_future := 1; channel := 23001 |})] /\
  accounted Sample.m_started_twice = 999%nat /\
  fst swept = Return tt /\
  servers (snd swept) = [] /\
  List.length (_free_ports (snd swept)) = 999%nat /\
  existsb (Z.eqb 23000) (_free_ports (snd swept)) = false.
Proof.
  vm_compute. repeat split.
Qed.

(** ** The shutdown hook *)

(** Where [concurrent.futures.TimeoutError] is the builtin [TimeoutError]
    the hook returns, having sent [kill()] to the children of the resolved
    records and to no other. *)
Lemma cleanup_loop_swallows :
  forall py st srvs killed,
    futures_timeout_is_builtin py = true ->
    cleanup_loop py st srvs killed = (Return tt, killed ++ resolved_pids st srvs).
Proof.
  intros py st srvs. induction srvs as [|s later IH]; intros killed Hpy; simpl.
  - now rewrite app_nil_r.
  - unfold wait_ready, process_handle.
    destruct (future_state st (process_handle_future s)) as [proc|]; simpl.
    + rewrite IH by assumption. now rewrite <- app_assoc.
    + rewrite Hpy. now apply IH.
Qed.

(** Where the two classes differ the first unresolved record ends the
    hook with the timeout error. *)
Lemma cleanup_loop_escapes :
  forall st srvs killed,
    forallb (resolved st) srvs = false ->
    fst (cleanup_loop py_before_3_11 st srvs killed) = Raise FuturesTimeoutError.
Proof.
  intros st srvs. induction srvs as [|s later IH]; intros killed H; simpl in *.
  - discriminate.
  - unfold wait_ready, process_handle, resolved in *.
    destruct (future_state st (process_handle_future s)) as [proc|]; simpl in *.
    + now apply IH.
    + reflexivity.
Qed.

(** With every future resolved the hook returns on every interpreter. *)
Lemma cleanup_loop_all_resolved :
  forall py st srvs killed,
    forallb (resolved st) srvs = true ->
    cleanup_loop py st srvs killed = (Return tt, killed ++ resolved_pids st srvs).
Proof.
  intros py st srvs. induction srvs as [|s later IH]; intros killed H; simpl in *.
  - now rewrite app_nil_r.
  - unfold wait_ready, process_handle, resolved in *.
    destruct (future_state st (process_handle_future s)) as [proc|]; simpl in *.
    + rewrite IH by assumption. now rewrite <- app_assoc.
    + discriminate.
Qed.

(** C9 on the code.  [wait_ready(0.1)] of an unresolved future raises
    [concurrent.futures.TimeoutError]; the handler is [except TimeoutError],
    the builtin, a different class on the interpreters before 3.11.  With
    client ["a"] starting (future unresolved) and client ["b"] up (pid 4002)
    the hook ends with that error: at once when ["a"] comes first, so that
    ["b"] is never killed, and after killing ["b"] when ["b"] comes first.
    On an interpreter where the two classes are one the same states give a
    normal return with ["b"] killed. *)
Theorem cleanup_lets_the_timeout_escape :
  values (servers Sample.m_pending_and_ready)
  = [ {| port := 23000; process_handle_future := 0; channel := 23000 |};
      {| port := 23001; process_handle_future := 1; channel := 23001 |} ] /\
  future_store Sample.m_pending_and_ready = [None; Some {| pid := 4002 |}] /\
  _cleanup py_before_3_11 Sample.m_pending_and_ready = (Raise FuturesTimeoutError, []) /\
  _cleanup py_before_3_11 Sample.m_ready_and_pending
  = (Raise FuturesTimeoutError, [4002%Z]) /\
  _cleanup py_3_11 Sample.m_pending_and_ready = (Return tt, [4002%Z]).
Proof.
  vm_compute. repeat split.
Qed.

(** ** The startup fence *)











(** ** The unary servicer *)

Import RayletServicerProxy.

Section ServicerFacts.

Variable Request Response : Type.
Variable request_type : Request -> Z.
Variable PING : Z.
Variable ClusterInfoResponse : string -> Response.
Variable channel_ready : Z -> bool.
Variable backend : Z -> string -> Request -> list (string * string) -> outcome Response.

(** A client id that is present and not empty is returned as it is and the
    context is not touched. *)
Lemma get_client_id_present :
  forall context cid,
    metadata_get "client_id" (invocation_metadata context) = Some cid ->
    cid <> "" ->
    _get_client_id_from_context context = (cid, context).
Proof.
  intros context cid Hmd Hne. unfold _get_client_id_from_context. rewrite Hmd.
  destruct (String.eqb cid "") eqn:E; [|reflexivity].
  apply String.eqb_eq in E. contradiction.
Qed.

(** An absent or empty client id gives the empty string and sets
    [INVALID_ARGUMENT]. *)
Lemma get_client_id_missing :
  forall context,
    metadata_get "client_id" (invocation_metadata context) = None \/
    metadata_get "client_id" (invocation_metadata context) = Some "" ->
    _get_client_id_from_context context = ("", set_code INVALID_ARGUMENT context).
Proof.
  intros context [H|H]; unfold _get_client_id_from_context; now rewrite H.
Qed.

(** With a ready backend [_call_inner_function] calls the stub method it
    was given, on the client's channel, with the client id as metadata. *)
Lemma call_inner_function_forwards :
  forall m request context method cid server proc,
    metadata_get "client_id" (invocation_metadata context) = Some cid ->
    cid <> "" ->
    dict_get cid (servers m) = Some server ->
    future_state (future_store m) (process_handle_future server) = Some proc ->
    channel_ready (channel server) = true ->
    _call_inner_function channel_ready backend m request context method
    = (bind (backend (channel server) method request [("client_id", cid)])
            (fun r => Return (Some r)),
       context,
       [GetChannel cid;
        StubCall (channel server) method request [("client_id", cid)]]).
Proof.
  intros m request context method cid server proc Hmd Hne Hsrv Hfut Hready.
  unfold _call_inner_function.
  rewrite (get_client_id_present _ Hmd Hne).
  unfold get_channel, _get_server_for_client, wait_ready.
  rewrite Hsrv, Hfut. simpl. now rewrite Hready.
Qed.

(** Twelve of the thirteen inbound methods reach the stub method of their
    own name. *)
Lemma serve_forwards_same_name :
  forall r m request context cid server proc,
    r <> rpc_KVDel ->
    (r = rpc_ClusterInfo -> request_type request <> PING) ->
    metadata_get "client_id" (invocation_metadata context) = Some cid ->
    cid <> "" ->
    dict_get cid (servers m) = Some server ->
    future_state (future_store m) (process_handle_future server) = Some proc ->
    channel_ready (channel server) = true ->
    effects (serve request_type PING ClusterInfoResponse channel_ready backend
                   r m request context)
    = [GetChannel cid;
       StubCall (channel server) (rpc_name r) request [("client_id", cid)]].
Proof.
  intros r m request context cid server proc Hr Hping Hmd Hne Hsrv Hfut Hready.
  pose proof (fun method =>
    call_inner_function_forwards m request context method Hmd Hne Hsrv Hfut Hready)
    as Hfwd.
  destruct r; try congruence; simpl;
    unfold Init, PrepRuntimeEnv, KVPut, KVGet, KVList, KVExists, ClusterInfo,
           Terminate, GetObject, PutObject, WaitObject, Schedule;
    try (rewrite Hfwd; reflexivity).
  destruct (Z.eqb (request_type request) PING) eqn:E.
  - apply Z.eqb_eq in E. exfalso. now apply Hping.
  - rewrite Hfwd. reflexivity.
Qed.

(** Without a record for the empty id a call without client id ends with
    [NOT_FOUND] set over [INVALID_ARGUMENT]. *)
Lemma call_inner_function_missing_id :
  forall m request context method,
    metadata_get "client_id" (invocation_metadata context) = None \/
    metadata_get "client_id" (invocation_metadata context) = Some "" ->
    dict_get "" (servers m) = None ->
    _call_inner_function channel_ready backend m request context method
    = (Return None,
       set_code NOT_FOUND (set_code INVALID_ARGUMENT context),
       [GetChannel ""]).
Proof.
  intros m request context method Hmd Hsrv.
  unfold _call_inner_function. rewrite (get_client_id_missing _ Hmd).
  unfold get_channel, _get_server_for_client. now rewrite Hsrv.
Qed.

End ServicerFacts.

(** C8.  A [ClusterInfo] request whose [type] is [PING] gets the response
    [ClusterInfoResponse(json="{}")] whatever the manager holds and whatever
    the metadata says: the manager is not asked for a channel, no stub is
    called and the context is left as it was. *)
Theorem ping_is_answered_locally :
  forall (Request Response : Type) (request_type : Request -> Z) (PING : Z)
         (ClusterInfoResponse : string -> Response)
         (channel_ready : Z -> bool)
         (backend : Z -> string -> Request -> list (string * string) -> outcome Response)
         (m : ProxyManager) (request : Request) (context : Context),
    request_type request = PING ->
    serve request_type PING ClusterInfoResponse channel_ready backend
          rpc_ClusterInfo m request context
    = (Return (Some (ClusterInfoResponse "{}")), context, []).
Proof.
  intros Req Resp request_type PING CIR cr backend m request context H.
  simpl. unfold ClusterInfo. rewrite H, Z.eqb_refl. reflexivity.
Qed.

(** The theorem at a manager without any record and a call without
    metadata. *)
Lemma ping_is_answered_locally_witness :
  serve fst Sample.PING (fun json => json) (fun _ => false) Sample.echo_backend
        rpc_ClusterInfo ProxyManager_init (Sample.PING, "") Sample.no_metadata
  = (Return (Some "{}"), Sample.no_metadata, []).
Proof.
  apply (ping_is_answered_locally fst (fun json : string => json) (fun _ => false)
           Sample.echo_backend ProxyManager_init (Sample.PING, "") Sample.no_metadata).
  reflexivity.
Defined.

(** C1 on the code.  Client ["c1"] has a ready backend on port 23000.  Its
    inbound [KVDel] is sent to the stub method ["KVGet"]; the inbound
    [KVGet], like the eleven others, goes to the method of its own name. *)
Theorem KVDel_is_forwarded_to_KVGet :
  let call r :=
    serve fst Sample.PING (fun json => json) (fun _ => true) Sample.echo_backend
          r Sample.m_ready (0%Z, "key") (Sample.with_client_id "c1") in
  call rpc_KVDel
  = (Return (Some "KVGet:key"), Sample.with_client_id "c1",
     [GetChannel "c1";
      StubCall 23000 "KVGet" (0%Z, "key") [("client_id", "c1")]]) /\
  rpc_name rpc_KVDel = "KVDel" /\
  effects (call rpc_KVDel) = effects (call rpc_KVGet) /\
  forall r, r <> rpc_KVDel ->
            effects (call r)
            = [GetChannel "c1";
               StubCall 23000 (rpc_name r) (0%Z, "key") [("client_id", "c1")]].
Proof.
  cbv zeta. repeat split.
  intros r Hr. destruct r; try congruence; reflexivity.
Qed.

(** C2 on the code.  A unary [GetObject] without metadata, on a manager
    without records: [_get_client_id_from_context] sets [INVALID_ARGUMENT],
    the call goes on to look up the channel of the empty id, finds none and
    sets [NOT_FOUND] in its place, which is the status the client gets.  The
    same holds for a [client_id] that is the empty string.  No record is
    created on the way: the servicer only reads the manager. *)
Theorem missing_client_id_ends_in_NOT_FOUND :
  let call context :=
    serve fst Sample.PING (fun json => json) (fun _ => true) Sample.echo_backend
          rpc_GetObject ProxyManager_init (0%Z, "id") context in
  snd (_get_client_id_from_context Sample.no_metadata)
  = {| invocation_metadata := []; code := Some INVALID_ARGUMENT |} /\
  call Sample.no_metadata
  = (Return None,
     {| invocation_metadata := []; code := Some NOT_FOUND |},
     [GetChannel ""]) /\
  rpc_status (reply (call Sample.no_metadata)) (context_after (call Sample.no_metadata))
  = Some NOT_FOUND /\
  code (context_after (call (Sample.with_client_id ""))) = Some NOT_FOUND.
Proof.
  cbv zeta. repeat split.
Qed.

(** ** The handshake rewrite *)

(** C6.  For a first message whose discriminator is [init] and whose
    [job_config] field is [C], with [decode C] the default job config when
    [C] is empty and the unpickled [C] otherwise,
    [prepare_runtime_init_req] returns the message with
    [job_config = encode (env_prep (decode C))] and every field outside
    [init] as it came in, together with the prepared job config; the
    iterator is left at the second message. *)
Theorem init_job_config_is_rewritten :
  forall (JobConfig Fields Other : Type) (JobConfig_default : JobConfig)
         (pickle_loads : bytes -> outcome JobConfig)
         (pickle_dumps : JobConfig -> bytes)
         (init_req : DataRequest Fields Other) (later : list (DataRequest Fields Other))
         (brk : bool) (C : bytes) (jc : JobConfig),
    type init_req = type_init Other {| job_config := C |} ->
    decode JobConfig_default pickle_loads C = Return jc ->
    prepare_runtime_init_req JobConfig_default pickle_loads pickle_dumps
      {| messages := init_req :: later; breaks := brk |}
    = (Return ({| fields := fields init_req;
                  type := type_init Other
                            {| job_config := encode pickle_dumps (env_prep jc) |} |},
               env_prep jc),
       {| messages := later; breaks := brk |}).
Proof.
  intros JC F O dflt loads dumps init_req later brk C jc Htype Hdec.
  unfold prepare_runtime_init_req, next, rewrite_init. simpl.
  rewrite Htype. simpl.
  unfold decode in Hdec.
  destruct C as [|b C]; simpl in Hdec |- *.
  - inversion Hdec; subst. reflexivity.
  - rewrite Hdec. reflexivity.
Qed.

(** The theorem at an init message with request id 7 and an empty job
    config, followed by one data message. *)
Lemma init_job_config_is_rewritten_witness :
  prepare_runtime_init_req (Byte.x2a :: nil : Sample.JobConfig) Sample.loads Sample.dumps
    (Sample.inbound [Sample.init_msg 7 []; Sample.data_msg 8])
  = (Return (Sample.init_msg 7 [Byte.x2a], [Byte.x2a]),
     Sample.inbound [Sample.data_msg 8]).
Proof.
  apply (init_job_config_is_rewritten
           (Byte.x2a :: nil : Sample.JobConfig) Sample.loads Sample.dumps
           (Sample.init_msg 7 []) [Sample.data_msg 8] false
           (C := []) (jc := [Byte.x2a])).
  - reflexivity.
  - reflexivity.
Defined.

(** ** The splice queue *)

Section SpliceFacts.

Variable Fields Other : Type.

Lemma map_Some_prefix :
  forall (a b : list (DataRequest Fields Other)) (t : list (option (DataRequest Fields Other))),
    map Some a ++ t = map Some b ++ [None] -> exists r, b = a ++ r.
Proof.
  induction a as [|x a IH]; intros b t H.
  - now exists b.
  - destruct b as [|y b]; simpl in H; [discriminate|].
    inversion H as [[Hxy Hrest]]. subst y.
    destruct (IH _ _ Hrest) as [r ->]. now exists r.
Qed.

Lemma map_Some_sentinel :
  forall (a b : list (DataRequest Fields Other)) (t : list (option (DataRequest Fields Other))),
    map Some a ++ None :: t = map Some b ++ [None] -> a = b.
Proof.
  induction a as [|x a IH]; intros b t H.
  - destruct b as [|y b]; [reflexivity|discriminate].
  - destruct b as [|y b]; simpl in H; [discriminate|].
    inversion H as [[Hxy Hrest]]. subst y. f_equal. now apply (IH _ t).
Qed.

Lemma step_carries :
  forall expected a (s s' : Splice Fields Other),
    carries expected s -> step a s = Some s' -> carries expected s'.
Proof.
  intros expected a s s' Hc Hstep.
  unfold carries, upcoming in *.
  destruct a; simpl in Hstep.
  - destruct (forwarder_done s) eqn:Hd; [discriminate|].
    destruct (to_forward s) as [|req later] eqn:Hf;
      inversion Hstep; subst; clear Hstep; simpl;
      destruct (backend_eof s); auto.
    + rewrite <- Hc. simpl. now rewrite <- !app_assoc.
    + rewrite <- Hc. simpl. now rewrite <- !app_assoc.
  - destruct (backend_eof s) eqn:He; [discriminate|].
    destruct (queue s) as [|[req|] q] eqn:Hq; [discriminate| |];
      inversion Hstep; subst; clear Hstep; simpl.
    + rewrite <- Hc, map_app. simpl. now rewrite <- !app_assoc.
    + simpl in Hc. now apply map_Some_sentinel in Hc.
Qed.

Lemma run_carries :
  forall expected schedule (s : Splice Fields Other),
    carries expected s -> carries expected (run schedule s).
Proof.
  intros expected. induction schedule as [|a schedule IH]; intros s Hc; simpl.
  - exact Hc.
  - apply IH. destruct (step a s) as [s'|] eqn:E; [|exact Hc].
    eapply step_carries; eauto.
Qed.

Lemma carries_prefix :
  forall expected (s : Splice Fields Other),
    carries expected s -> exists rest, expected = delivered s ++ rest.
Proof.
  intros expected s Hc. unfold carries in Hc.
  destruct (backend_eof s).
  - exists []. now rewrite app_nil_r.
  - now apply map_Some_prefix in Hc.
Qed.

Lemma run_app :
  forall sch1 sch2 (s : Splice Fields Other), run (sch1 ++ sch2) s = run sch2 (run sch1 s).
Proof.
  induction sch1 as [|a sch1 IH]; intros sch2 s; simpl; [reflexivity|apply IH].
Qed.

(** Left alone, the forwarder does what [forward_streaming_requests] says. *)
Lemma forwarder_runs_to_its_end :
  forall brk (tf : list (DataRequest Fields Other)) (s : Splice Fields Other),
    to_forward s = tf ->
    forwarder_done s = false ->
    run (repeat Forwarder (S (List.length tf))) s
    = {| to_forward := []; forwarder_done := true;
         queue := forward_streaming_requests {| messages := tf; breaks := brk |} (queue s);
         delivered := delivered s; backend_eof := backend_eof s |}.
Proof.
  intros brk. unfold forward_streaming_requests. cbn [messages].
  induction tf as [|req tf IH]; intros s Hf Hd.
  - simpl. rewrite Hd, Hf. reflexivity.
  - change (repeat Forwarder (S (List.length (req :: tf))))
      with (Forwarder :: repeat Forwarder (S (List.length tf))).
    cbn [run step]. rewrite Hd, Hf.
    rewrite IH by reflexivity. simpl. now rewrite <- app_assoc.
Qed.

Lemma backend_reads_to_the_sentinel :
  forall (l : list (DataRequest Fields Other)) (t : list (option (DataRequest Fields Other))) (s : Splice Fields Other),
    queue s = map Some l ++ None :: t ->
    backend_eof s = false ->
    backend_eof (run (repeat Backend (S (List.length l))) s) = true.
Proof.
  induction l as [|req l IH]; intros t s Hq He.
  - simpl. rewrite He, Hq. reflexivity.
  - change (repeat Backend (S (List.length (req :: l))))
      with (Backend :: repeat Backend (S (List.length l))).
    cbn [run step]. rewrite He, Hq. simpl map. cbn iota beta.
    apply (IH t); reflexivity.
Qed.

End SpliceFacts.

(** When [Datapath] reaches the splice, the queue holds the rewritten first
    message and the forwarder has the rest of the inbound stream before it. *)
Lemma Datapath_spliced :
  forall (JobConfig Fields Other : Type) (JobConfig_default : JobConfig)
         (pickle_loads : bytes -> outcome JobConfig)
         (pickle_dumps : JobConfig -> bytes)
         (env : StartEnv) (channel_ready : Z -> bool)
         (m0 : DataRequest Fields Other) (later : list (DataRequest Fields Other))
         (brk : bool) (context : Context) (m : ProxyManager)
         chan md s context' m',
    Datapath JobConfig_default pickle_loads pickle_dumps env channel_ready
             {| messages := m0 :: later; breaks := brk |} context m
    = (Return (Spliced chan md s), context', m') ->
    exists m0' jc,
      rewrite_init JobConfig_default pickle_loads pickle_dumps m0 = Return (m0', jc) /\
      md = [("client_id", fst (_get_client_id_from_context context))] /\
      s = {| to_forward := later; forwarder_done := false; queue := [Some m0'];
             delivered := []; backend_eof := false |}.
Proof.
  intros JC F O dflt loads dumps env cr m0 later brk context m chan md s context' m' H.
  unfold Datapath in H.
  destruct (_get_client_id_from_context context) as [cid ctx1].
  destruct (String.eqb cid ""); [discriminate|].
  unfold prepare_runtime_init_req, next in H. cbn [messages breaks] in H.
  destruct (rewrite_init dflt loads dumps m0) as [[m0' jc]|e|].
  - destruct (start_specific_server env cid jc m) as [[[|]|e|] m1]; try discriminate.
    destruct (get_channel cr cid m1) as [[ch|]|e|]; try discriminate.
    inversion H; subst. exists m0', jc. auto.
  - destruct e; discriminate.
  - discriminate.
Qed.

(** C7.  Let [Datapath] reach the splice on the inbound messages
    [m0 :: later].  Then [m0] is an init message that was rewritten to some
    [m0'], the queue holds [m0'] alone before either thread has moved, and
    however the forwarder and the backend stream are interleaved the
    backend stream has read a prefix of [m0' :: later]; it has read all of
    it, in that order, when it reaches the sentinel.  It does reach the
    sentinel, for one when the forwarder runs first. *)
Theorem backend_observes_rewritten_first_message_first :
  forall (JobConfig Fields Other : Type) (JobConfig_default : JobConfig)
         (pickle_loads : bytes -> outcome JobConfig)
         (pickle_dumps : JobConfig -> bytes)
         (env : StartEnv) (channel_ready : Z -> bool)
         (m0 : DataRequest Fields Other) (later : list (DataRequest Fields Other))
         (brk : bool) (context : Context) (m : ProxyManager)
         chan md s context' m',
    Datapath JobConfig_default pickle_loads pickle_dumps env channel_ready
             {| messages := m0 :: later; breaks := brk |} context m
    = (Return (Spliced chan md s), context', m') ->
    exists m0' jc,
      rewrite_init JobConfig_default pickle_loads pickle_dumps m0 = Return (m0', jc) /\
      (exists init, type m0 = type_init Other init) /\
      queue s = [Some m0'] /\
      delivered s = [] /\
      (forall schedule,
          exists rest, m0' :: later = delivered (run schedule s) ++ rest) /\
      (forall schedule,
          backend_eof (run schedule s) = true ->
          delivered (run schedule s) = m0' :: later) /\
      backend_eof (run (forwarder_first s) s) = true.
Proof.
  intros JC F O dflt loads dumps env cr m0 later brk context m chan md s context' m' H.
  destruct (Datapath_spliced _ _ _ _ _ _ _ _ _ _ H) as (m0' & jc & Hrw & _ & Hs).
  exists m0', jc.
  assert (Hc : carries (m0' :: later) s).
  { subst s. unfold carries, upcoming. simpl. reflexivity. }
  split; [exact Hrw|]. split.
  { unfold rewrite_init in Hrw. destruct (type m0) as [init| |]; try discriminate.
    now exists init. }
  split; [now subst s|]. split; [now subst s|]. split; [|split].
  - intros schedule. apply carries_prefix. now apply run_carries.
  - intros schedule Heof.
    pose proof (@run_carries _ _ _ schedule _ Hc) as Hrun.
    unfold carries in Hrun. now rewrite Heof in Hrun.
  - unfold forwarder_first. rewrite run_app.
    rewrite (@forwarder_runs_to_its_end _ _ brk (to_forward s)) by now subst s.
    subst s. cbn [to_forward queue List.length Nat.add].
    apply (backend_reads_to_the_sentinel (m0' :: later) []); reflexivity.
Qed.

(** The theorem at client ["c1"] on a fresh manager, sending an init
    message with an empty job config and two data messages. *)
Lemma backend_observes_rewritten_first_message_first_witness :
  let later := [Sample.data_msg 8; Sample.data_msg 9] in
  let s0 := {| to_forward := later; forwarder_done := false;
               queue := [Some (Sample.init_msg 7 [])];
               delivered := []; backend_eof := false |} in
  exists m0' jc,
    rewrite_init (nil : Sample.JobConfig) Sample.loads Sample.dumps
                 (Sample.init_msg 7 []) = Return (m0', jc) /\
    (exists init, type (Sample.init_msg 7 []) = type_init unit init) /\
    queue s0 = [Some m0'] /\
    delivered s0 = [] /\
    (forall schedule,
        exists rest, m0' :: later = delivered (run schedule s0) ++ rest) /\
    (forall schedule,
        backend_eof (run schedule s0) = true ->
        delivered (run schedule s0) = m0' :: later) /\
    backend_eof (run (forwarder_first s0) s0) = true.
Proof.
  intros later s0.
  apply (backend_observes_rewritten_first_message_first
           (nil : Sample.JobConfig) Sample.loads Sample.dumps
           (Sample.env_up 4001) (fun _ => true)
           (Sample.init_msg 7 []) later false
           (Sample.with_client_id "c1") ProxyManager_init
           (chan := 23000%Z) (md := [("client_id", "c1")]) (s := s0)
           (context' := Sample.with_client_id "c1") (m' := Sample.m_ready)).
  vm_compute. reflexivity.
Defined.

(** * Further properties of the code *)

(** ** [_get_unused_port] *)

Lemma probe_ports_first_bindable :
  forall bind_ok bad p good n,
    all_taken bind_ok bad = true ->
    bind_ok p = true ->
    (List.length bad < n)%nat ->
    probe_ports bind_ok n (bad ++ p :: good) = (Return p, good ++ bad).
Proof.
  intros bind_ok. induction bad as [|b bad IH]; intros p good n Hbad Hp Hn.
  - destruct n as [|n]; [simpl in Hn; lia|].
    simpl. rewrite Hp. now rewrite app_nil_r.
  - destruct n as [|n]; [simpl in Hn; lia|].
    unfold all_taken in Hbad. simpl in Hbad.
    apply andb_true_iff in Hbad as [Hb Hbad]. apply negb_true_iff in Hb.
    simpl. rewrite Hb. rewrite <- app_assoc. simpl.
    rewrite IH; auto; [|simpl in Hn; lia].
    now rewrite <- app_assoc.
Qed.

Lemma first_bindable_split :
  forall bind_ok free,
    all_taken bind_ok free = false ->
    exists bad p good,
      free = bad ++ p :: good /\ all_taken bind_ok bad = true /\ bind_ok p = true.
Proof.
  intros bind_ok. induction free as [|q free IH]; intros H.
  - discriminate.
  - unfold all_taken in H. simpl in H.
    destruct (bind_ok q) eqn:Hq.
    + exists [], q, free. auto.
    + simpl in H. destruct (IH H) as (bad & p & good & -> & Hbad & Hp).
      exists (q :: bad), p, good. repeat split; auto.
      unfold all_taken. simpl. rewrite Hq. exact Hbad.
Qed.

Lemma get_unused_port_first_bindable :
  forall bind_ok m bad p good,
    _free_ports m = bad ++ p :: good ->
    all_taken bind_ok bad = true ->
    bind_ok p = true ->
    _get_unused_port bind_ok m
    = (Return p,
       {| servers := servers m; _free_ports := good ++ bad;
          future_store := future_store m |}).
Proof.
  intros bind_ok m bad p good Hfree Hbad Hp.
  unfold _get_unused_port. rewrite Hfree.
  rewrite probe_ports_first_bindable; auto.
  rewrite length_app. simpl. lia.
Qed.

(** X1.  [_get_unused_port] returns the first port of the free list, in
    list order, that passes the probe bind.  The ports before it, which
    failed the probe, are moved behind the others in their order; the
    records and futures are not touched. *)
Theorem get_unused_port_takes_first_bindable :
  forall (bind_ok : Z -> bool) (m : ProxyManager) (bad : list Z) (p : Z) (good : list Z),
    _free_ports m = bad ++ p :: good ->
    all_taken bind_ok bad = true ->
    bind_ok p = true ->
    _get_unused_port bind_ok m
    = (Return p,
       {| servers := servers m; _free_ports := good ++ bad;
          future_store := future_store m |}).
Proof.
  exact get_unused_port_first_bindable.
Qed.

(** The theorem at a four-port list whose first two ports are taken. *)
Lemma get_unused_port_takes_first_bindable_witness :
  _get_unused_port (fun p => Z.leb 23002 p)
    {| servers := []; _free_ports := [23000; 23001; 23002; 23003]%Z; future_store := [] |}
  = (Return 23002%Z,
     {| servers := []; _free_ports := [23003; 23000; 23001]%Z; future_store := [] |}).
Proof.
  apply (get_unused_port_takes_first_bindable (fun p => Z.leb 23002 p)
           {| servers := []; _free_ports := [23000; 23001; 23002; 23003]%Z;
              future_store := [] |}
           [23000; 23001]%Z 23002%Z [23003%Z]); reflexivity.
Defined.

(** X2.  [_get_unused_port] returns a port exactly when some port of the
    free list passes the probe; it then never fails, and the only error it
    can end with is the [RuntimeError] of the exhausted pool. *)
Theorem get_unused_port_returns_iff_some_port_binds :
  forall (bind_ok : Z -> bool) (m : ProxyManager),
    ((exists p, fst (_get_unused_port bind_ok m) = Return p) <->
     all_taken bind_ok (_free_ports m) = false) /\
    (fst (_get_unused_port bind_ok m) = Raise unused_port_error <->
     all_taken bind_ok (_free_ports m) = true).
Proof.
  intros bind_ok m.
  destruct (all_taken bind_ok (_free_ports m)) eqn:E.
  - rewrite (get_unused_port_exhausted _ _ E). simpl. split; split; try reflexivity.
    + intros [p H]. discriminate.
    + discriminate.
  - destruct (first_bindable_split _ _ E) as (bad & p & good & Hfree & Hbad & Hp).
    rewrite (@get_unused_port_first_bindable bind_ok m bad p good Hfree Hbad Hp). simpl.
    split; split; try reflexivity; try discriminate.
    intros _. now exists p.
Qed.

(** ** The ports of the manager *)

Lemma probe_ports_count :
  forall bind_ok n free r free' x,
    probe_ports bind_ok n free = (r, free') ->
    count_occ Z.eq_dec free x
    = (count_occ Z.eq_dec free' x
       + match r with Return p => count_occ Z.eq_dec [p] x | _ => 0 end)%nat.
Proof.
  intros bind_ok. induction n as [|n IH]; intros free r free' x H; simpl in H.
  - inversion H; subst. lia.
  - destruct free as [|q rest].
    + inversion H; subst. lia.
    + destruct (bind_ok q).
      * inversion H; subst. simpl. destruct (Z.eq_dec q x); lia.
      * apply IH with (x := x) in H. rewrite count_occ_app in H. simpl in *.
        destruct (Z.eq_dec q x); lia.
Qed.

Lemma dict_set_ports_count :
  forall k v (d : dict SpecificServer) x,
    (count_occ Z.eq_dec (map port (values (dict_set k v d))) x
     <= count_occ Z.eq_dec (map port (values d)) x + count_occ Z.eq_dec [port v] x)%nat.
Proof.
  induction d as [|[k' v'] d IH]; intros x; simpl.
  - lia.
  - destruct (String.eqb k k'); simpl.
    + destruct (Z.eq_dec (port v) x), (Z.eq_dec (port v') x); lia.
    + specialize (IH x). simpl in IH.
      destruct (Z.eq_dec (port v') x); lia.
Qed.

Lemma dict_del_ports_count :
  forall k v (d : dict SpecificServer) x,
    dict_get k d = Some v ->
    (count_occ Z.eq_dec (map port (values (dict_del k d))) x
     + count_occ Z.eq_dec [port v] x)%nat
    = count_occ Z.eq_dec (map port (values d)) x.
Proof.
  induction d as [|[k' v'] d IH]; intros x H; simpl in H; [discriminate|].
  simpl. destruct (String.eqb k k').
  - inversion H; subst. simpl. destruct (Z.eq_dec (port v) x); lia.
  - specialize (IH x H). simpl in *. destruct (Z.eq_dec (port v') x); lia.
Qed.

Lemma dict_del_get_other :
  forall {V : Type} k k' (d : dict V),
    k' <> k -> dict_get k' (dict_del k d) = dict_get k' d.
Proof.
  intros V k k'. induction d as [|[k0 v0] d IH]; intros Hne; simpl; [reflexivity|].
  destruct (String.eqb k k0) eqn:E.
  - apply String.eqb_eq in E. subst k0.
    destruct (String.eqb k' k) eqn:E'; [|reflexivity].
    apply String.eqb_eq in E'. contradiction.
  - simpl. destruct (String.eqb k' k0); [reflexivity|]. now apply IH.
Qed.

Lemma dict_del_keys_in :
  forall {V : Type} k (d : dict V) x, In x (keys (dict_del k d)) -> In x (keys d).
Proof.
  intros V k. induction d as [|[k0 v0] d IH]; intros x H; simpl in *; [assumption|].
  destruct (String.eqb k k0); simpl in *; [now right|].
  destruct H as [H|H]; [now left|right; now apply IH].
Qed.

Lemma dict_del_NoDup :
  forall {V : Type} k (d : dict V), NoDup (keys d) -> NoDup (keys (dict_del k d)).
Proof.
  intros V k. induction d as [|[k0 v0] d IH]; intros H; simpl in *; [assumption|].
  inversion H as [|? ? Hnotin Hd]; subst.
  destruct (String.eqb k k0); simpl; [assumption|].
  constructor; [|now apply IH].
  intros Hin. apply Hnotin. now apply dict_del_keys_in in Hin.
Qed.

Lemma dict_get_In :
  forall {V : Type} k (v : V) (d : dict V),
    NoDup (keys d) -> In (k, v) d -> dict_get k d = Some v.
Proof.
  intros V k v. induction d as [|[k0 v0] d IH]; intros Hnd Hin; simpl in *; [contradiction|].
  inversion Hnd as [|? ? Hnotin Hd]; subst.
  destruct Hin as [Heq|Hin].
  - inversion Heq; subst. now rewrite String.eqb_refl.
  - destruct (String.eqb k k0) eqn:E; [|now apply IH].
    apply String.eqb_eq in E. subst k0. exfalso. apply Hnotin.
    change k with (fst (k, v)). now apply in_map.
Qed.

(** No port gains an occurrence in the lock block of a start. *)
Lemma start_locked_ports_count :
  forall bind_ok client_id m x,
    (count_occ Z.eq_dec (all_ports (snd (start_locked bind_ok client_id m))) x
     <= count_occ Z.eq_dec (all_ports m) x)%nat.
Proof.
  intros bind_ok cid m x. unfold start_locked, _get_unused_port.
  destruct (probe_ports bind_ok (List.length (_free_ports m)) (_free_ports m))
    as [r free'] eqn:E.
  apply probe_ports_count with (x := x) in E.
  destruct r as [p|e|]; unfold all_ports; simpl; rewrite !count_occ_app.
  - pose proof (dict_set_ports_count cid
                  {| port := p; process_handle_future := List.length (future_store m);
                     channel := p |} (servers m) x) as H.
    simpl in H, E. destruct (Z.eq_dec p x); lia.
  - lia.
  - lia.
Qed.

(** A sweep, finished or not, keeps every port's number of occurrences. *)
Lemma sweep_items_ports_count :
  forall os_poll items m x,
    NoDup (keys items) ->
    (forall k v, In (k, v) items -> dict_get k (servers m) = Some v) ->
    count_occ Z.eq_dec (all_ports (snd (sweep_items os_poll items m))) x
    = count_occ Z.eq_dec (all_ports m) x.
Proof.
  intros os_poll. induction items as [|[cid s] later IH]; intros m x Hnd Hin; simpl.
  - reflexivity.
  - inversion Hnd as [|? ? Hnotin Hlater]; subst.
    destruct (process_handle (future_store m) s) as [proc|e|]; try reflexivity.
    destruct (os_poll (pid proc)).
    + rewrite IH; auto.
      * unfold all_ports. simpl. rewrite !count_occ_app.
        pose proof (dict_del_ports_count cid (servers m) x
                      (Hin cid s (or_introl eq_refl))) as H.
        simpl in *. lia.
      * intros k v Hkv. simpl. rewrite dict_del_get_other.
        -- apply Hin. now right.
        -- intros ->. apply Hnotin. change cid with (fst (cid, v)). now apply in_map.
    + apply IH; auto. intros k v Hkv. apply Hin. now right.
Qed.

Lemma sweep_items_keys_NoDup :
  forall os_poll items m,
    NoDup (keys (servers m)) ->
    NoDup (keys (servers (snd (sweep_items os_poll items m)))).
Proof.
  intros os_poll. induction items as [|[cid s] later IH]; intros m H; simpl.
  - assumption.
  - destruct (process_handle (future_store m) s) as [proc|e|]; try assumption.
    destruct (os_poll (pid proc)); apply IH; simpl; auto.
    now apply dict_del_NoDup.
Qed.

(** Fewer occurrences of every port keep the ports distinct and in range. *)
Lemma fewer_ports_ok :
  forall l l' : list Z,
    (forall x, count_occ Z.eq_dec l' x <= count_occ Z.eq_dec l x)%nat ->
    NoDup l /\ Forall in_pool l ->
    NoDup l' /\ Forall in_pool l'.
Proof.
  intros l l' Hle [Hnd Hpool]. split.
  - apply (NoDup_count_occ Z.eq_dec). intros x.
    specialize (Hle x).
    pose proof (proj1 (NoDup_count_occ Z.eq_dec l) Hnd x). lia.
  - apply Forall_forall. intros x Hx.
    apply (count_occ_In Z.eq_dec) in Hx.
    rewrite Forall_forall in Hpool. apply Hpool.
    apply (count_occ_In Z.eq_dec). specialize (Hle x). lia.
Qed.

Lemma start_locked_ports_ok :
  forall bind_ok client_id m,
    ports_ok m -> ports_ok (snd (start_locked bind_ok client_id m)).
Proof.
  intros bind_ok cid m (Hk & Hp). split.
  - unfold start_locked, _get_unused_port.
    destruct (probe_ports bind_ok (List.length (_free_ports m)) (_free_ports m))
      as [[p|e|] free']; simpl; auto.
    now apply dict_set_NoDup.
  - apply fewer_ports_ok with (l := all_ports m); auto.
    intros x. apply start_locked_ports_count.
Qed.

Lemma start_specific_server_same_ports :
  forall (JobConfig : Type) env client_id (job_config : JobConfig) m,
    servers (snd (start_specific_server env client_id job_config m))
    = servers (snd (start_locked (bind_ok env) client_id m)) /\
    _free_ports (snd (start_specific_server env client_id job_config m))
    = _free_ports (snd (start_locked (bind_ok env) client_id m)).
Proof.
  intros JC env cid jc m. unfold start_specific_server.
  destruct (start_locked (bind_ok env) cid m) as [[[p f]|e|] m1]; simpl; auto.
  destruct (if win32 env then _ else _); simpl; auto.
Qed.

Lemma start_specific_server_ports_ok :
  forall (JobConfig : Type) env client_id (job_config : JobConfig) m,
    ports_ok m -> ports_ok (snd (start_specific_server env client_id job_config m)).
Proof.
  intros JC env cid jc m H.
  pose proof (@start_locked_ports_ok (bind_ok env) cid m H) as H1.
  destruct (start_specific_server_same_ports env cid jc m) as [Hs Hf].
  unfold ports_ok, all_ports in *. now rewrite Hs, Hf.
Qed.

Lemma check_processes_ports_ok :
  forall os_poll m, ports_ok m -> ports_ok (snd (_check_processes os_poll m)).
Proof.
  intros os_poll m (Hk & Hp). split.
  - now apply sweep_items_keys_NoDup.
  - apply fewer_ports_ok with (l := all_ports m); auto.
    intros x. unfold _check_processes. rewrite sweep_items_ports_count; auto.
    intros k v Hin. now apply dict_get_In.
Qed.

Lemma range_In :
  forall lo hi p, In p (range lo hi) -> (lo <= p < hi)%Z.
Proof.
  intros lo hi p H. unfold range in H. apply in_map_iff in H as (i & <- & Hi).
  apply in_seq in Hi. lia.
Qed.

Lemma range_NoDup : forall lo hi, NoDup (range lo hi).
Proof.
  intros lo hi. unfold range. apply Finite.Injective_map_NoDup.
  - intros i j H. lia.
  - apply seq_NoDup.
Qed.

Lemma init_ports_ok : ports_ok ProxyManager_init.
Proof.
  unfold ports_ok, all_ports, ProxyManager_init, values, keys.
  cbn [servers _free_ports map]. rewrite app_nil_r.
  split; [constructor|]. split; [apply range_NoDup|].
  apply Forall_forall. intros p Hp. now apply range_In in Hp.
Qed.

Lemma dict_get_In_values :
  forall {V : Type} k (v : V) (d : dict V), dict_get k d = Some v -> In v (values d).
Proof.
  intros V k v. induction d as [|[k0 v0] d IH]; intros H; simpl in *; [discriminate|].
  destruct (String.eqb k k0); [inversion H; now left|right; now apply IH].
Qed.

Lemma records_hold_distinct_ports :
  forall (d : dict SpecificServer) c1 c2 s1 s2,
    NoDup (map port (values d)) ->
    dict_get c1 d = Some s1 -> dict_get c2 d = Some s2 -> c1 <> c2 ->
    port s1 <> port s2.
Proof.
  induction d as [|[k v] d IH]; intros c1 c2 s1 s2 Hnd H1 H2 Hne; simpl in *;
    [discriminate|].
  inversion Hnd as [|? ? Hnotin Hd]; subst.
  destruct (String.eqb c1 k) eqn:E1, (String.eqb c2 k) eqn:E2.
  - apply String.eqb_eq in E1, E2. congruence.
  - inversion H1; subst. intros Heq. apply Hnotin. rewrite Heq.
    apply in_map. now apply dict_get_In_values in H2.
  - inversion H2; subst. intros Heq. apply Hnotin. rewrite <- Heq.
    apply in_map. now apply dict_get_In_values in H1.
  - now apply (IH c1 c2).
Qed.

(** X3.  [start_specific_server] keeps the ports in order whatever its
    outcome (a port found or not, the child up or not, the call still
    waiting, a record replaced): client ids stay unique, no port is held
    twice -- by two records or by a record and the free list -- and every
    port stays within [23000, 24000). *)
Theorem start_specific_server_keeps_ports_ok :
  forall (env : StartEnv) (client_id : string) (m : ProxyManager),
    ports_ok m ->
    ports_ok (snd (start_specific_server env client_id tt m)).
Proof.
  intros env cid m H. now apply start_specific_server_ports_ok.
Qed.

(** The theorem at the first start on a new manager. *)
Lemma start_specific_server_keeps_ports_ok_witness :
  ports_ok (snd (start_specific_server (Sample.env_up 4001) "c1" tt ProxyManager_init)).
Proof.
  apply (@start_specific_server_keeps_ports_ok (Sample.env_up 4001) "c1"
           ProxyManager_init).
  exact init_ports_ok.
Defined.

(** X4.  A reaper sweep keeps the ports in order too, also when it stops
    to wait on an unresolved future half way through the records. *)
Theorem check_processes_keeps_ports_ok :
  forall (os_poll : Z -> option Z) (m : ProxyManager),
    ports_ok m ->
    ports_ok (snd (_check_processes os_poll m)).
Proof.
  intros os_poll m H. now apply check_processes_ports_ok.
Qed.

(** The theorem at two backends of which one has exited. *)
Lemma check_processes_keeps_ports_ok_witness :
  ports_ok (snd (_check_processes Sample.poll_4001_exited Sample.m_two_ready)).
Proof.
  apply (@check_processes_keeps_ports_ok Sample.poll_4001_exited Sample.m_two_ready).
  unfold Sample.m_two_ready, Sample.m_ready.
  apply start_specific_server_ports_ok, start_specific_server_ports_ok.
  exact init_ports_ok.
Defined.

(** X5.  From a new manager on, after any sequence of backend starts and
    reaper sweeps: two different clients never hold the same port, and the
    port of a record lies in [23000, 24000) and is not in the free list. *)
Theorem ports_of_clients_never_collide :
  forall (ops : list Op),
    let m := fold_left apply_op ops ProxyManager_init in
    ports_ok m /\
    (forall c1 c2 s1 s2,
        dict_get c1 (servers m) = Some s1 ->
        dict_get c2 (servers m) = Some s2 ->
        c1 <> c2 -> port s1 <> port s2) /\
    (forall c s,
        dict_get c (servers m) = Some s ->
        in_pool (port s) /\ ~ In (port s) (_free_ports m)).
Proof.
  intros ops m.
  assert (Hok : ports_ok m).
  { subst m. generalize init_ports_ok. generalize ProxyManager_init.
    induction ops as [|o ops IH]; intros m0 H0; simpl; [exact H0|].
    apply IH. destruct o; simpl.
    - now apply start_specific_server_ports_ok.
    - now apply check_processes_ports_ok. }
  split; [exact Hok|].
  destruct Hok as (_ & Hnd & Hpool). unfold all_ports in *.
  split.
  - intros c1 c2 s1 s2 H1 H2 Hne.
    apply NoDup_app_remove_l in Hnd.
    eapply records_hold_distinct_ports; eauto.
  - intros c s Hc.
    assert (Hin : In (port s) (map port (values (servers m)))).
    { apply in_map. now apply dict_get_In_values in Hc. }
    split.
    + rewrite Forall_forall in Hpool. apply Hpool. apply in_or_app. now right.
    + intros Hfree.
      apply (NoDup_count_occ Z.eq_dec) with (x := port s) in Hnd.
      rewrite count_occ_app in Hnd.
      apply (count_occ_In Z.eq_dec) in Hin, Hfree. lia.
Qed.

(** ** [start_specific_server] and [get_channel] *)

Lemma dict_get_set_same :
  forall {V : Type} k (v : V) (d : dict V), dict_get k (dict_set k v d) = Some v.
Proof.
  intros V k v. induction d as [|[k0 v0] d IH]; simpl.
  - now rewrite String.eqb_refl.
  - destruct (String.eqb k k0) eqn:E; simpl; rewrite E; [reflexivity|exact IH].
Qed.

Lemma dict_get_set_other :
  forall {V : Type} k k' (v : V) (d : dict V),
    k' <> k -> dict_get k' (dict_set k v d) = dict_get k' d.
Proof.
  intros V k k' v. induction d as [|[k0 v0] d IH]; intros Hne; simpl.
  - destruct (String.eqb k' k) eqn:E; [|reflexivity].
    apply String.eqb_eq in E. contradiction.
  - destruct (String.eqb k k0) eqn:E; simpl.
    + apply String.eqb_eq in E. subst k0.
      destruct (String.eqb k' k) eqn:E'; [|reflexivity].
      apply String.eqb_eq in E'. contradiction.
    + destruct (String.eqb k' k0); [reflexivity|now apply IH].
Qed.

Lemma dict_set_fresh :
  forall {V : Type} k (v : V) (d : dict V),
    dict_get k d = None -> dict_set k v d = d ++ [(k, v)].
Proof.
  intros V k v. induction d as [|[k0 v0] d IH]; intros H; simpl in *; [reflexivity|].
  destruct (String.eqb k k0); [discriminate|]. now rewrite IH.
Qed.

Lemma set_result_new :
  forall st proc, set_result (List.length st) proc (st ++ [None]) = st ++ [Some proc].
Proof.
  induction st as [|c st IH]; intros proc; simpl; [reflexivity|now rewrite IH].
Qed.

Lemma future_state_app_old :
  forall st l i, (i < List.length st)%nat -> future_state (st ++ l) i = future_state st i.
Proof.
  intros st l i H. unfold future_state. now rewrite app_nth1.
Qed.

Lemma future_state_new :
  forall st c, future_state (st ++ [c]) (List.length st) = c.
Proof.
  intros st c. unfold future_state. rewrite app_nth2 by lia.
  now rewrite Nat.sub_diag.
Qed.

Lemma future_state_resolved_in_store :
  forall st i proc, future_state st i = Some proc -> (i < List.length st)%nat.
Proof.
  intros st i proc H. unfold future_state in H.
  destruct (Nat.lt_ge_cases i (List.length st)) as [Hlt|Hge]; [assumption|].
  rewrite nth_overflow in H by assumption. discriminate.
Qed.

(** The two ways through the lock block. *)
Lemma start_locked_cases :
  forall bind_ok client_id m,
    (all_taken bind_ok (_free_ports m) = true /\
     start_locked bind_ok client_id m = (Raise unused_port_error, m)) \/
    (exists bad p good,
        _free_ports m = bad ++ p :: good /\
        all_taken bind_ok bad = true /\
        bind_ok p = true /\
        start_locked bind_ok client_id m
        = (Return (p, List.length (future_store m)),
           {| servers :=
                dict_set client_id
                  {| port := p; process_handle_future := List.length (future_store m);
                     channel := p |} (servers m);
              _free_ports := good ++ bad;
              future_store := future_store m ++ [None] |})).
Proof.
  intros bind_ok cid m.
  destruct (all_taken bind_ok (_free_ports m)) eqn:E.
  - left. split; [reflexivity|]. now apply start_locked_exhausted.
  - right. destruct (first_bindable_split _ _ E) as (bad & p & good & Hfree & Hbad & Hp).
    exists bad, p, good. repeat split; auto.
    unfold start_locked.
    rewrite (@get_unused_port_first_bindable bind_ok m bad p good Hfree Hbad Hp).
    reflexivity.
Qed.

(** What a start that returns leaves behind. *)
Lemma start_specific_server_returned :
  forall (JobConfig : Type) env client_id (job_config : JobConfig) m b m',
    start_specific_server env client_id job_config m = (Return b, m') ->
    exists bad p good,
      _free_ports m = bad ++ p :: good /\
      all_taken (bind_ok env) bad = true /\
      bind_ok env p = true /\
      b = match final_poll env with None => true | Some _ => false end /\
      m' = {| servers :=
                dict_set client_id
                  {| port := p; process_handle_future := List.length (future_store m);
                     channel := p |} (servers m);
              _free_ports := good ++ bad;
              future_store := future_store m ++ [Some (launched env)] |}.
Proof.
  intros JC env cid jc m b m' H. unfold start_specific_server in H.
  destruct (start_locked_cases (bind_ok env) cid m)
    as [[_ Hl]|(bad & p & good & Hfree & Hbad & Hp & Hl)]; rewrite Hl in H.
  - discriminate.
  - exists bad, p, good. repeat split; auto;
      destruct (if win32 env then _ else _); try discriminate;
      inversion H; subst; auto.
    unfold with_future_store. simpl. now rewrite set_result_new.
Qed.

(** X6.  When [start_specific_server] returns -- with [True] or with
    [False] -- the record of the client is installed: it holds a port that
    was free and passed the probe, its channel goes to that port, and its
    process future is resolved with the launched process.  The value
    returned says whether the last poll found the child running. *)
Theorem start_specific_server_installs_record :
  forall (env : StartEnv) (client_id : string) (m : ProxyManager)
         (b : bool) (m' : ProxyManager),
    start_specific_server env client_id tt m = (Return b, m') ->
    exists server,
      dict_get client_id (servers m') = Some server /\
      channel server = port server /\
      In (port server) (_free_ports m) /\
      bind_ok env (port server) = true /\
      process_handle (future_store m') server = Return (launched env) /\
      b = match final_poll env with None => true | Some _ => false end.
Proof.
  intros env cid m b m' H.
  destruct (start_specific_server_returned _ _ _ _ H)
    as (bad & p & good & Hfree & Hbad & Hp & Hb & ->).
  eexists. split; [simpl; apply dict_get_set_same|]. simpl.
  split; [reflexivity|].
  split; [rewrite Hfree; apply in_or_app; right; now left|].
  split; [assumption|]. split; [|assumption].
  unfold process_handle. simpl. now rewrite future_state_new.
Qed.

(** The theorem at a child that is found exited at the first look: the
    call returns [False] and the record is there. *)
Lemma start_specific_server_installs_record_witness :
  let env := {| bind_ok := fun _ => true; launched := {| pid := 4009 |};
                win32 := false;
                observations := [{| obs_poll := Some 1%Z; obs_cmdline := [] |}];
                final_poll := Some 1%Z |} in
  let m' := {| servers :=
                 [("c1", {| port := 23000; process_handle_future := 0;
                            channel := 23000 |})];
               _free_ports := range 23001 24000;
               future_store := [Some {| pid := 4009 |}] |} in
  exists server,
    dict_get "c1" (servers m') = Some server /\
    channel server = port server /\
    In (port server) (_free_ports ProxyManager_init) /\
    bind_ok env (port server) = true /\
    process_handle (future_store m') server = Return (launched env) /\
    false = match final_poll env with None => true | Some _ => false end.
Proof.
  intros env m'.
  apply (@start_specific_server_installs_record env "c1" ProxyManager_init false m').
  vm_compute. reflexivity.
Defined.

(** X7.  A start for one client, whatever its outcome, leaves the record of
    every other client and every future that existed before as they were. *)
Theorem start_specific_server_leaves_other_clients :
  forall (env : StartEnv) (client_id other : string) (m : ProxyManager),
    other <> client_id ->
    let m' := snd (start_specific_server env client_id tt m) in
    dict_get other (servers m') = dict_get other (servers m) /\
    forall i, (i < List.length (future_store m))%nat ->
              future_state (future_store m') i = future_state (future_store m) i.
Proof.
  intros env cid other m Hne m'. subst m'. unfold start_specific_server.
  destruct (start_locked_cases (bind_ok env) cid m)
    as [[_ Hl]|(bad & p & good & Hfree & Hbad & Hp & Hl)]; rewrite Hl.
  - simpl. auto.
  - destruct (if win32 env then _ else _); simpl.
    + rewrite set_result_new. split.
      * now apply dict_get_set_other.
      * intros i Hi. now apply future_state_app_old.
    + split.
      * now apply dict_get_set_other.
      * intros i Hi. now apply future_state_app_old.
Qed.

(** The theorem at a second client starting beside a ready one. *)
Lemma start_specific_server_leaves_other_clients_witness :
  let m' := snd (start_specific_server (Sample.env_up 4002) "c2" tt Sample.m_ready) in
  dict_get "c1" (servers m') = dict_get "c1" (servers Sample.m_ready) /\
  forall i, (i < List.length (future_store Sample.m_ready))%nat ->
            future_state (future_store m') i
            = future_state (future_store Sample.m_ready) i.
Proof.
  apply (@start_specific_server_leaves_other_clients (Sample.env_up 4002)
           "c2" "c1" Sample.m_ready).
  discriminate.
Defined.

(** X8.  While a [start_specific_server] call is waiting in its loop, a
    port has been found, the platform is not win32, no iteration so far has
    seen the child exited or past the fence, and the record of the client is
    already installed: it holds a port taken from the free list and its
    process future is unresolved.  On win32 the call never waits in the
    loop. *)
Theorem waiting_start_has_installed_its_record :
  forall (env : StartEnv) (client_id : string) (m : ProxyManager),
    let r := start_specific_server env client_id tt m in
    (fst r = Blocked ->
     all_taken (bind_ok env) (_free_ports m) = false /\
     win32 env = false /\
     wait_loop (observations env) 0 = None /\
     exists server,
       dict_get client_id (servers (snd r)) = Some server /\
       In (port server) (_free_ports m) /\
       bind_ok env (port server) = true /\
       process_handle (future_store (snd r)) server = Blocked) /\
    (win32 env = true -> fst r <> Blocked).
Proof.
  intros env cid m r. subst r. unfold start_specific_server.
  destruct (start_locked_cases (bind_ok env) cid m)
    as [[Hall Hl]|(bad & p & good & Hfree & Hbad & Hp & Hl)]; rewrite Hl.
  - simpl. split; [discriminate|]. intros _. discriminate.
  - assert (Hall : all_taken (bind_ok env) (_free_ports m) = false).
    { rewrite Hfree. unfold all_taken in *. rewrite forallb_app. simpl.
      rewrite Hp. simpl. now rewrite andb_false_r. }
    destruct (win32 env); simpl.
    + split; [discriminate|]. intros _. discriminate.
    + destruct (wait_loop (observations env) 0); simpl.
      * split; [discriminate|]. intros H. discriminate.
      * split; [|intros H; discriminate]. intros _.
        repeat split; auto.
        eexists. split; [apply dict_get_set_same|]. simpl.
        split; [rewrite Hfree; apply in_or_app; right; now left|].
        split; [assumption|].
        unfold process_handle. simpl. now rewrite future_state_new.
Qed.



(** X10.  [get_channel] never raises.  It waits exactly when the client
    has a record whose process future is unresolved, and a channel it
    returns is the channel of the client's record, found ready. *)
Theorem get_channel_blocks_iff_unresolved :
  forall (channel_ready : Z -> bool) (client_id : string) (m : ProxyManager),
    (forall e, get_channel channel_ready client_id m <> Raise e) /\
    (get_channel channel_ready client_id m = Blocked <->
     exists server,
       dict_get client_id (servers m) = Some server /\
       future_state (future_store m) (process_handle_future server) = None) /\
    (forall chan,
        get_channel channel_ready client_id m = Return (Some chan) ->
        exists server,
          dict_get client_id (servers m) = Some server /\
          channel server = chan /\ channel_ready chan = true /\
          resolved (future_store m) server = true).
Proof.
  intros cr cid m. unfold get_channel, _get_server_for_client, wait_ready, resolved.
  destruct (dict_get cid (servers m)) as [server|].
  - destruct (future_state (future_store m) (process_handle_future server))
      as [proc|] eqn:Hf; simpl.
    + destruct (cr (channel server)) eqn:Hc.
      * split; [discriminate|]. split.
        -- split; [discriminate|]. intros (s & Hs & Hn). inversion Hs; subst. congruence.
        -- intros chan Hch. inversion Hch; subst. exists server.
           rewrite Hf. auto.
      * split; [discriminate|]. split.
        -- split; [discriminate|]. intros (s & Hs & Hn). inversion Hs; subst. congruence.
        -- discriminate.
    + split; [discriminate|]. split.
      * split; auto. intros _. now exists server.
      * discriminate.
  - split; [discriminate|]. split.
    + split; [discriminate|]. intros (s & Hs & _). discriminate.
    + discriminate.
Qed.

(** X11.  The wait loop ends at the first iteration that finds the child
    exited or its command line past the fence, having slept once for every
    iteration before.  The exit is looked at first: a child found exited
    counts as failed even when its command line shows the fence. *)
Theorem wait_loop_stops_at_first_exit_or_fence :
  forall (waiting : list Observation) (o : Observation) (later : list Observation),
    Forall (fun w => obs_poll w = None /\ fence_crossed (obs_cmdline w) = false)
           waiting ->
    obs_poll o <> None \/ fence_crossed (obs_cmdline o) = true ->
    wait_loop (waiting ++ o :: later) 0
    = Some (match obs_poll o with Some _ => StartupFailed | None => ReachedServer end,
            List.length waiting).
Proof.
  intros waiting o later Hw Ho.
  assert (G : forall n, wait_loop (waiting ++ o :: later) n
                        = Some (match obs_poll o with
                                | Some _ => StartupFailed
                                | None => ReachedServer
                                end, (n + List.length waiting)%nat)).
  { induction Hw as [|w waiting [Hpoll Hfence] Hw IH]; intros n; simpl.
    - rewrite Nat.add_0_r. destruct (obs_poll o); [reflexivity|].
      destruct Ho as [Ho|Ho]; [congruence|]. now rewrite Ho.
    - rewrite Hpoll, Hfence, IH. do 2 f_equal. lia. }
  apply G.
Qed.

(** The theorem at a shim seen twice, then a child that has exited while
    its command line shows the server module. *)
Lemma wait_loop_stops_at_first_exit_or_fence_witness :
  let shim := {| obs_poll := None; obs_cmdline := ["python"; "shim.py"] |} in
  let gone := {| obs_poll := Some 1%Z;
                 obs_cmdline := ["python"; "-m"; "ray.util.client.server"; "--port"] |} in
  wait_loop ([shim; shim] ++ gone :: []) 0 = Some (StartupFailed, 2%nat).
Proof.
  intros shim gone.
  apply (@wait_loop_stops_at_first_exit_or_fence [shim; shim] gone []).
  - repeat constructor.
  - left. discriminate.
Defined.

(** ** The reaper, again *)

Lemma filter_keys_in :
  forall {V : Type} (f : string * V -> bool) (d : dict V) k,
    In k (keys (filter f d)) -> In k (keys d).
Proof.
  intros V f. induction d as [|[k0 v0] d IH]; intros k H; simpl in *; [assumption|].
  destruct (f (k0, v0)); simpl in *.
  - destruct H as [H|H]; [now left|right; now apply IH].
  - right. now apply IH.
Qed.

Lemma filter_keys_NoDup :
  forall {V : Type} (f : string * V -> bool) (d : dict V),
    NoDup (keys d) -> NoDup (keys (filter f d)).
Proof.
  intros V f. induction d as [|[k0 v0] d IH]; intros H; simpl in *; [assumption|].
  inversion H as [|? ? Hnotin Hd]; subst.
  destruct (f (k0, v0)); simpl; [|now apply IH].
  constructor; [|now apply IH].
  intros Hin. apply Hnotin. now apply filter_keys_in in Hin.
Qed.

Lemma forallb_filter_values :
  forall {V : Type} (g : V -> bool) (f : string * V -> bool) (d : dict V),
    forallb g (values d) = true -> forallb g (values (filter f d)) = true.
Proof.
  intros V g f. induction d as [|[k0 v0] d IH]; intros H; simpl in *; [reflexivity|].
  apply andb_true_iff in H as [H0 H]. destruct (f (k0, v0)); simpl; auto.
  now rewrite H0, IH.
Qed.

Lemma filter_twice :
  forall {A : Type} (f : A -> bool) (l : list A), filter f (filter f l) = filter f l.
Proof.
  intros A f. induction l as [|a l IH]; simpl; [reflexivity|].
  destruct (f a) eqn:E; simpl; [rewrite E; now f_equal|exact IH].
Qed.

Lemma filter_of_the_others :
  forall {V : Type} (g : V -> bool) (d : dict V),
    filter g (values (filter (fun kv => negb (g (snd kv))) d)) = [].
Proof.
  intros V g. induction d as [|[k0 v0] d IH]; simpl; [reflexivity|].
  destruct (g v0) eqn:E; simpl; [exact IH|]. now rewrite E.
Qed.

(** X12.  A sweep that finds every future resolved leaves nothing for a
    second sweep over the same process states: the second one returns the
    manager unchanged. *)
Theorem check_processes_twice :
  forall (os_poll : Z -> option Z) (m : ProxyManager),
    NoDup (keys (servers m)) ->
    forallb (resolved (future_store m)) (values (servers m)) = true ->
    _check_processes os_poll (snd (_check_processes os_poll m))
    = (Return tt, snd (_check_processes os_poll m)).
Proof.
  intros os_poll m Hnd Hres.
  rewrite (check_processes_returns os_poll m Hnd Hres). simpl.
  rewrite check_processes_returns; simpl.
  - rewrite filter_twice, filter_of_the_others, app_nil_r. reflexivity.
  - now apply filter_keys_NoDup.
  - now apply forallb_filter_values.
Qed.

(** The theorem at two ready backends of which one has exited. *)
Lemma check_processes_twice_witness :
  _check_processes Sample.poll_4001_exited
    (snd (_check_processes Sample.poll_4001_exited Sample.m_two_ready))
  = (Return tt, snd (_check_processes Sample.poll_4001_exited Sample.m_two_ready)).
Proof.
  apply (@check_processes_twice Sample.poll_4001_exited Sample.m_two_ready).
  - vm_compute. repeat constructor; simpl; intuition discriminate.
  - vm_compute. reflexivity.
Defined.

Lemma resolved_in_longer_store :
  forall st l s, resolved st s = true -> resolved (st ++ l) s = true.
Proof.
  intros st l s H. unfold resolved in *.
  destruct (future_state st (process_handle_future s)) as [proc|] eqn:E; [|discriminate].
  rewrite future_state_app_old, E; [reflexivity|].
  now apply future_state_resolved_in_store in E.
Qed.

Lemma exited_in_longer_store :
  forall os_poll st l s,
    resolved st s = true -> exited os_poll (st ++ l) s = exited os_poll st s.
Proof.
  intros os_poll st l s H. unfold resolved, exited in *.
  destruct (future_state st (process_handle_future s)) as [proc|] eqn:E; [|discriminate].
  rewrite future_state_app_old, E; [reflexivity|].
  now apply future_state_resolved_in_store in E.
Qed.

(** X13.  A start for a new client followed, once its child has exited, by
    a sweep puts the manager back: the records are those from before the
    start and the free list holds the same ports, the one that was used
    (and those that failed the probe) now at its tail.  Here every record
    from before has a resolved future and a running child. *)
Theorem start_then_reap_restores_the_pool :
  forall (env : StartEnv) (os_poll : Z -> option Z) (client_id : string)
         (m : ProxyManager) (b : bool) (m1 : ProxyManager) (rc : Z),
    NoDup (keys (servers m)) ->
    dict_get client_id (servers m) = None ->
    forallb (resolved (future_store m)) (values (servers m)) = true ->
    forallb (fun s => negb (exited os_poll (future_store m) s)) (values (servers m))
    = true ->
    start_specific_server env client_id tt m = (Return b, m1) ->
    os_poll (pid (launched env)) = Some rc ->
    exists bad p good,
      _free_ports m = bad ++ p :: good /\
      _check_processes os_poll m1
      = (Return tt,
         {| servers := servers m;
            _free_ports := good ++ bad ++ [p];
            future_store := future_store m ++ [Some (launched env)] |}).
Proof.
  intros env os_poll cid m b m1 rc Hnd Hfresh Hres Hrun Hstart Hexit.
  destruct (start_specific_server_returned _ _ _ _ Hstart)
    as (bad & p & good & Hfree & Hbad & Hp & Hb & ->).
  exists bad, p, good. split; [assumption|].
  rewrite (@dict_set_fresh _ cid _ (servers m) Hfresh).
  set (st := future_store m) in *.
  set (new := {| port := p; process_handle_future := List.length st; channel := p |}).
  assert (Hnew : exited os_poll (st ++ [Some (launched env)]) new = true).
  { unfold exited, new. simpl. now rewrite future_state_new, Hexit. }
  assert (Hold : forall d : dict SpecificServer,
             forallb (resolved st) (values d) = true ->
             forallb (fun s => negb (exited os_poll st s)) (values d) = true ->
             forallb (resolved (st ++ [Some (launched env)])) (values d) = true /\
             filter (fun kv => negb (exited os_poll (st ++ [Some (launched env)]) (snd kv))) d
             = d /\
             filter (exited os_poll (st ++ [Some (launched env)])) (values d) = []).
  { induction d as [|[k v] d IH]; simpl; intros H1 H2; [auto|].
    apply andb_true_iff in H1 as [Hv H1]. apply andb_true_iff in H2 as [Hv' H2].
    destruct (IH H1 H2) as (I1 & I2 & I3).
    rewrite (@resolved_in_longer_store st [Some (launched env)] v Hv),
            (@exited_in_longer_store os_poll st [Some (launched env)] v Hv).
    apply negb_true_iff in Hv'. rewrite Hv'. simpl.
    rewrite I1, I2, I3. auto. }
  destruct (Hold (servers m) Hres Hrun) as (O1 & O2 & O3).
  rewrite check_processes_returns; simpl.
  - unfold values. rewrite map_app, !filter_app. fold (values (servers m)).
    rewrite O2, O3. simpl. rewrite Hnew. simpl.
    rewrite app_nil_r, <- app_assoc. reflexivity.
  - rewrite <- (@dict_set_fresh _ cid new (servers m) Hfresh). now apply dict_set_NoDup.
  - unfold values. rewrite map_app, forallb_app. fold (values (servers m)).
    rewrite O1. simpl. unfold resolved, new. simpl.
    now rewrite future_state_new.
Qed.

(** The theorem at the first client of a new manager, whose child 4001
    exits. *)
Lemma start_then_reap_restores_the_pool_witness :
  exists bad p good,
    _free_ports ProxyManager_init = bad ++ p :: good /\
    _check_processes Sample.poll_4001_exited Sample.m_ready
    = (Return tt,
       {| servers := servers ProxyManager_init;
          _free_ports := good ++ bad ++ [p];
          future_store :=
            future_store ProxyManager_init ++ [Some (launched (Sample.env_up 4001))] |}).
Proof.
  apply (@start_then_reap_restores_the_pool (Sample.env_up 4001)
           Sample.poll_4001_exited "c1" ProxyManager_init true Sample.m_ready 1%Z).
  - constructor.
  - reflexivity.
  - reflexivity.
  - reflexivity.
  - vm_compute. reflexivity.
  - reflexivity.
Defined.

(** ** The shutdown hook, again *)

Lemma cleanup_loop_never_blocks :
  forall py st srvs killed, fst (cleanup_loop py st srvs killed) <> Blocked.
Proof.
  intros py st. induction srvs as [|s later IH]; intros killed; simpl.
  - discriminate.
  - unfold wait_ready, process_handle.
    destruct (future_state st (process_handle_future s)) as [proc|]; simpl.
    + apply IH.
    + destruct (futures_timeout_is_builtin py); [apply IH|discriminate].
Qed.

(** X14.  The shutdown hook never waits for a backend to come up: on every
    interpreter and for every manager it returns or raises. *)
Theorem cleanup_never_waits :
  forall (py : Interpreter) (m : ProxyManager), fst (_cleanup py m) <> Blocked.
Proof.
  intros py m. apply cleanup_loop_never_blocks.
Qed.

(** X15.  When every record's future is resolved the hook returns normally
    on every interpreter and has sent [kill()] to the child of every
    record, once each, in map order. *)
Theorem cleanup_kills_every_child :
  forall (py : Interpreter) (m : ProxyManager),
    forallb (resolved (future_store m)) (values (servers m)) = true ->
    exists procs,
      map (process_handle (future_store m)) (values (servers m)) = map (@Return _) procs /\
      _cleanup py m = (Return tt, map pid procs).
Proof.
  intros py m H. unfold _cleanup.
  rewrite (cleanup_loop_all_resolved py _ _ [] H). simpl.
  induction (values (servers m)) as [|s later IH]; simpl in *.
  - now exists [].
  - apply andb_true_iff in H as [Hs H]. destruct (IH H) as (procs & Hmap & Hk).
    unfold resolved, process_handle in *.
    destruct (future_state (future_store m) (process_handle_future s)) as [proc|];
      [|discriminate].
    exists (proc :: procs). simpl. split; [now rewrite Hmap|].
    inversion Hk as [Hpids]. now rewrite Hpids.
Qed.

(** The theorem at two ready backends. *)
Lemma cleanup_kills_every_child_witness :
  exists procs,
    map (process_handle (future_store Sample.m_two_ready))
        (values (servers Sample.m_two_ready)) = map (@Return _) procs /\
    _cleanup py_before_3_11 Sample.m_two_ready = (Return tt, map pid procs).
Proof.
  apply (@cleanup_kills_every_child py_before_3_11 Sample.m_two_ready).
  vm_compute. reflexivity.
Defined.

(** X16.  On an interpreter where [concurrent.futures.TimeoutError] is the
    builtin [TimeoutError] the hook always returns normally, having killed
    the children of the records whose future is resolved, in map order, and
    passed over the others. *)
Theorem cleanup_swallows_timeouts_from_3_11 :
  forall (py : Interpreter) (m : ProxyManager),
    futures_timeout_is_builtin py = true ->
    _cleanup py m
    = (Return tt, resolved_pids (future_store m) (values (servers m))).
Proof.
  intros py m H. unfold _cleanup. now rewrite cleanup_loop_swallows.
Qed.

(** The theorem at one starting and one ready backend. *)
Lemma cleanup_swallows_timeouts_from_3_11_witness :
  _cleanup py_3_11 Sample.m_pending_and_ready
  = (Return tt,
     resolved_pids (future_store Sample.m_pending_and_ready)
                   (values (servers Sample.m_pending_and_ready))).
Proof.
  apply (@cleanup_swallows_timeouts_from_3_11 py_3_11 Sample.m_pending_and_ready).
  reflexivity.
Defined.

Lemma cleanup_loop_before_3_11 :
  forall st srvs killed,
    forallb (resolved st) srvs = false ->
    exists before unresolved after,
      srvs = before ++ unresolved :: after /\
      forallb (resolved st) before = true /\
      resolved st unresolved = false /\
      cleanup_loop py_before_3_11 st srvs killed
      = (Raise FuturesTimeoutError, killed ++ resolved_pids st before).
Proof.
  intros st. induction srvs as [|s later IH]; intros killed H; simpl in H.
  - discriminate.
  - destruct (resolved st s) eqn:Hs.
    + simpl in H. destruct (IH (killed ++ resolved_pids st [s]) H)
        as (before & u & after & -> & Hb & Hu & Hloop).
      exists (s :: before), u, after. simpl. rewrite Hs, Hb.
      repeat split; auto.
      unfold resolved in Hs. unfold wait_ready, process_handle.
      destruct (future_state st (process_handle_future s)) as [proc|] eqn:E;
        [|discriminate].
      simpl. simpl in Hloop. rewrite E in Hloop. rewrite app_nil_r in Hloop.
      rewrite Hloop. now rewrite <- app_assoc.
    + exists [], s, later. simpl. repeat split; auto.
      unfold resolved in Hs. unfold wait_ready.
      destruct (future_state st (process_handle_future s)); [discriminate|].
      simpl. now rewrite app_nil_r.
Qed.

(** X17.  On an interpreter before 3.11 the hook ends with
    [concurrent.futures.TimeoutError] whenever some record's future is
    unresolved: it has then killed the children of the records before the
    first such record and none of those after it. *)
Theorem cleanup_stops_at_first_unresolved_before_3_11 :
  forall (m : ProxyManager),
    forallb (resolved (future_store m)) (values (servers m)) = false ->
    exists before unresolved after,
      values (servers m) = before ++ unresolved :: after /\
      forallb (resolved (future_store m)) before = true /\
      resolved (future_store m) unresolved = false /\
      _cleanup py_before_3_11 m
      = (Raise FuturesTimeoutError, resolved_pids (future_store m) before).
Proof.
  intros m H. unfold _cleanup.
  destruct (cleanup_loop_before_3_11 (future_store m) (values (servers m)) [] H)
    as (before & u & after & Hv & Hb & Hu & Hloop).
  exists before, u, after. auto.
Qed.

(** The theorem at a ready backend followed by a starting one. *)
Lemma cleanup_stops_at_first_unresolved_before_3_11_witness :
  exists before unresolved after,
    values (servers Sample.m_ready_and_pending) = before ++ unresolved :: after /\
    forallb (resolved (future_store Sample.m_ready_and_pending)) before = true /\
    resolved (future_store Sample.m_ready_and_pending) unresolved = false /\
    _cleanup py_before_3_11 Sample.m_ready_and_pending
    = (Raise FuturesTimeoutError,
       resolved_pids (future_store Sample.m_ready_and_pending) before).
Proof.
  apply (@cleanup_stops_at_first_unresolved_before_3_11 Sample.m_ready_and_pending).
  vm_compute. reflexivity.
Defined.

(** ** The unary servicer, again *)

Lemma get_channel_Some :
  forall channel_ready client_id m chan,
    get_channel channel_ready client_id m = Return (Some chan) ->
    exists server,
      dict_get client_id (servers m) = Some server /\ channel server = chan /\
      channel_ready chan = true.
Proof.
  intros cr cid m chan H. unfold get_channel, _get_server_for_client, wait_ready in H.
  destruct (dict_get cid (servers m)) as [server|]; [|discriminate].
  destruct (future_state (future_store m) (process_handle_future server));
    simpl in H; [|discriminate].
  destruct (cr (channel server)) eqn:E; inversion H; subst. now exists server.
Qed.

Lemma get_channel_no_backend :
  forall channel_ready client_id m,
    dict_get client_id (servers m) = None \/
    (exists server,
        dict_get client_id (servers m) = Some server /\
        resolved (future_store m) server = true /\
        channel_ready (channel server) = false) ->
    get_channel channel_ready client_id m = Return None.
Proof.
  intros cr cid m [H|(server & Hs & Hr & Hc)];
    unfold get_channel, _get_server_for_client, wait_ready, resolved in *.
  - now rewrite H.
  - rewrite Hs.
    destruct (future_state (future_store m) (process_handle_future server));
      [|discriminate].
    simpl. now rewrite Hc.
Qed.

(** X18.  A unary call (any method; a [ClusterInfo] only when it is not a
    PING) of a client that has no record, or whose backend channel does not
    become ready in time, is answered with [None] and status [NOT_FOUND]; no
    stub is called. *)
Theorem no_backend_is_NOT_FOUND :
  forall (Request Response : Type) (request_type : Request -> Z) (PING : Z)
         (ClusterInfoResponse : string -> Response)
         (channel_ready : Z -> bool)
         (backend : Z -> string -> Request -> list (string * string) -> outcome Response)
         (r : DriverRpc) (m : ProxyManager) (request : Request) (context : Context)
         (cid : string),
    metadata_get "client_id" (invocation_metadata context) = Some cid ->
    cid <> "" ->
    (r = rpc_ClusterInfo -> request_type request <> PING) ->
    dict_get cid (servers m) = None \/
    (exists server,
        dict_get cid (servers m) = Some server /\
        resolved (future_store m) server = true /\
        channel_ready (channel server) = false) ->
    serve request_type PING ClusterInfoResponse channel_ready backend r m request context
    = (Return None, set_code NOT_FOUND context, [GetChannel cid]).
Proof.
  intros Req Resp rt PING CIR cr backend r m request context cid Hmd Hne Hping Hno.
  assert (H : forall method,
             _call_inner_function cr backend m request context method
             = (Return None, set_code NOT_FOUND context, [GetChannel cid])).
  { intros method. unfold _call_inner_function.
    rewrite (get_client_id_present _ Hmd Hne).
    now rewrite (get_channel_no_backend cr cid m Hno). }
  destruct r; simpl;
    unfold Init, PrepRuntimeEnv, KVPut, KVGet, KVDel, KVList, KVExists, ClusterInfo,
           Terminate, GetObject, PutObject, WaitObject, Schedule;
    try apply H.
  destruct (Z.eqb (rt request) PING) eqn:E; [|apply H].
  apply Z.eqb_eq in E. exfalso. now apply Hping.
Qed.

(** The theorem at a [KVGet] of a client unknown to a new manager; the
    request happens to carry the number of PING in its [type]. *)
Lemma no_backend_is_NOT_FOUND_witness :
  serve fst Sample.PING (fun json => json) (fun _ => true) Sample.echo_backend
        rpc_KVGet ProxyManager_init (Sample.PING, "key") (Sample.with_client_id "c9")
  = (Return None, set_code NOT_FOUND (Sample.with_client_id "c9"), [GetChannel "c9"]).
Proof.
  apply (@no_backend_is_NOT_FOUND Sample.Request Sample.Response fst Sample.PING
           (fun json => json) (fun _ => true) Sample.echo_backend
           rpc_KVGet ProxyManager_init (Sample.PING, "key")
           (Sample.with_client_id "c9") "c9").
  - reflexivity.
  - discriminate.
  - intros H. discriminate.
  - left. reflexivity.
Defined.

(** X19.  Whatever the inbound method, the manager and the metadata, a
    unary call makes at most one stub call; that call goes to the channel of
    the record filed under the caller's own client id, carries the request
    as it came in and the metadata [client_id] alone. *)
Theorem servicer_calls_only_own_backend :
  forall (Request Response : Type) (request_type : Request -> Z) (PING : Z)
         (ClusterInfoResponse : string -> Response)
         (channel_ready : Z -> bool)
         (backend : Z -> string -> Request -> list (string * string) -> outcome Response)
         (r : DriverRpc) (m : ProxyManager) (request : Request) (context : Context),
    let served :=
      serve request_type PING ClusterInfoResponse channel_ready backend
            r m request context in
    let cid := fst (_get_client_id_from_context context) in
    (List.length (filter is_stub_call (effects served)) <= 1)%nat /\
    forall chan method req md,
      In (StubCall chan method req md) (effects served) ->
      req = request /\ md = [("client_id", cid)] /\
      exists server,
        dict_get cid (servers m) = Some server /\ channel server = chan.
Proof.
  intros Req Resp rt PING CIR cr backend r m request context served cid.
  assert (H : forall method,
             let c := _call_inner_function cr backend m request context method in
             (List.length (filter is_stub_call (effects c)) <= 1)%nat /\
             forall chan method' req md,
               In (StubCall chan method' req md) (effects c) ->
               req = request /\ md = [("client_id", cid)] /\
               exists server,
                 dict_get cid (servers m) = Some server /\ channel server = chan).
  { intros method c. subst c cid. unfold _call_inner_function.
    destruct (_get_client_id_from_context context) as [id ctx1]. simpl.
    destruct (get_channel cr id m) as [[chan|]|e|] eqn:G; unfold effects; simpl.
    - split; [lia|]. intros chan' method' req md [Hin|[Hin|[]]]; [discriminate|].
      inversion Hin; subst. repeat split.
      destruct (get_channel_Some _ _ _ G) as (server & Hs & Hc & _).
      now exists server.
    - split; [lia|]. intros chan' method' req md [Hin|[]]. discriminate.
    - split; [lia|]. intros chan' method' req md [Hin|[]]. discriminate.
    - split; [lia|]. intros chan' method' req md [Hin|[]]. discriminate. }
  subst served. destruct r; simpl;
    unfold Init, PrepRuntimeEnv, KVPut, KVGet, KVDel, KVList, KVExists, ClusterInfo,
           Terminate, GetObject, PutObject, WaitObject, Schedule;
    try apply H.
  destruct (Z.eqb (rt request) PING); [|apply H].
  unfold effects. simpl. split; [lia|]. intros chan method req md [].
Qed.

(** X20.  For every inbound method but [KVDel] (and but a [ClusterInfo]
    PING), a call of a client whose backend is up and whose channel is ready
    makes exactly one stub call: to the method of the inbound name, on the
    channel of the client's record, with the request as it came in and the
    metadata [client_id]. *)
Theorem twelve_methods_forward_under_their_own_name :
  forall (Request Response : Type) (request_type : Request -> Z) (PING : Z)
         (ClusterInfoResponse : string -> Response)
         (channel_ready : Z -> bool)
         (backend : Z -> string -> Request -> list (string * string) -> outcome Response)
         (r : DriverRpc) (m : ProxyManager) (request : Request) (context : Context)
         (cid : string) (server : SpecificServer) (proc : ProcessInfo),
    r <> rpc_KVDel ->
    (r = rpc_ClusterInfo -> request_type request <> PING) ->
    metadata_get "client_id" (invocation_metadata context) = Some cid ->
    cid <> "" ->
    dict_get cid (servers m) = Some server ->
    future_state (future_store m) (process_handle_future server) = Some proc ->
    channel_ready (channel server) = true ->
    effects (serve request_type PING ClusterInfoResponse channel_ready backend
                   r m request context)
    = [GetChannel cid;
       StubCall (channel server) (rpc_name r) request [("client_id", cid)]].
Proof.
  intros. eapply serve_forwards_same_name; eauto.
Qed.

(** The theorem at a [GetObject] of client ["c1"], whose backend is up. *)
Lemma twelve_methods_forward_under_their_own_name_witness :
  effects (serve fst Sample.PING (fun json => json) (fun _ => true) Sample.echo_backend
                 rpc_GetObject Sample.m_ready (0%Z, "id") (Sample.with_client_id "c1"))
  = [GetChannel "c1";
     StubCall 23000 "GetObject" (0%Z, "id") [("client_id", "c1")]].
Proof.
  apply (@twelve_methods_forward_under_their_own_name
           Sample.Request Sample.Response fst Sample.PING
           (fun json => json) (fun _ => true) Sample.echo_backend
           rpc_GetObject Sample.m_ready (0%Z, "id") (Sample.with_client_id "c1") "c1"
           {| port := 23000; process_handle_future := 0; channel := 23000 |}
           {| pid := 4001 |}).
  - discriminate.
  - discriminate.
  - reflexivity.
  - discriminate.
  - reflexivity.
  - reflexivity.
  - reflexivity.
Defined.

(** X21.  [_get_client_id_from_context] never changes the metadata.  It
    returns the empty string, and sets [INVALID_ARGUMENT], exactly when the
    metadata has no [client_id] or an empty one; otherwise it returns the
    metadata's [client_id] and leaves the context as it is. *)
Theorem get_client_id_sets_INVALID_ARGUMENT_iff_empty :
  forall (context : Context),
    let cid := fst (_get_client_id_from_context context) in
    let context' := snd (_get_client_id_from_context context) in
    invocation_metadata context' = invocation_metadata context /\
    (cid = "" <->
     metadata_get "client_id" (invocation_metadata context) = None \/
     metadata_get "client_id" (invocation_metadata context) = Some "") /\
    (cid = "" -> code context' = Some INVALID_ARGUMENT) /\
    (cid <> "" ->
     context' = context /\
     metadata_get "client_id" (invocation_metadata context) = Some cid).
Proof.
  intros context cid context'. subst cid context'.
  unfold _get_client_id_from_context.
  destruct (metadata_get "client_id" (invocation_metadata context)) as [v|].
  - destruct (String.eqb v "") eqn:E; simpl.
    + apply String.eqb_eq in E. subst v. intuition congruence.
    + apply String.eqb_neq in E. intuition congruence.
  - simpl. intuition congruence.
Qed.

(** ** The data stream, again *)

Lemma get_client_id_sets_nothing_when_present :
  forall context,
    fst (_get_client_id_from_context context) <> "" ->
    snd (_get_client_id_from_context context) = context.
Proof.
  intros context H. unfold _get_client_id_from_context in *.
  destruct (metadata_get "client_id" (invocation_metadata context)) as [v|];
    simpl in *; [|contradiction].
  destruct (String.eqb v "") eqn:E; simpl in *; [|reflexivity].
  apply String.eqb_eq in E. contradiction.
Qed.

Section DatapathFacts.

Variable JobConfig Fields Other : Type.
Variable JobConfig_default : JobConfig.
Variable pickle_loads : bytes -> outcome JobConfig.
Variable pickle_dumps : JobConfig -> bytes.

(** X22.  A data stream without client id is closed at once with
    [INVALID_ARGUMENT]: the request iterator is not read (whatever its
    first message, nothing is asserted or unpickled) and the manager is not
    touched. *)
Theorem Datapath_without_client_id_reads_nothing :
  forall (env : StartEnv) (channel_ready : Z -> bool)
         (request_iterator : Inbound Fields Other)
         (context : Context) (m : ProxyManager),
    fst (_get_client_id_from_context context) = "" ->
    Datapath JobConfig_default pickle_loads pickle_dumps env channel_ready
             request_iterator context m
    = (Return (Closed Fields Other), set_code INVALID_ARGUMENT context, m).
Proof.
  intros env cr it context m H. unfold Datapath.
  unfold _get_client_id_from_context in *.
  destruct (metadata_get "client_id" (invocation_metadata context)) as [v|]; simpl in *.
  - destruct (String.eqb v "") eqn:E; simpl in H; subst; simpl.
    + reflexivity.
    + discriminate.
  - reflexivity.
Qed.

(** X23.  When the handshake fails -- the stream is empty or broken, its
    first message is not an init message, or the job config cannot be
    unpickled -- the data stream ends without a result, no backend is
    started (the manager is as before) and no status code is set. *)
Theorem Datapath_failed_handshake_starts_nothing :
  forall (env : StartEnv) (channel_ready : Z -> bool)
         (request_iterator : Inbound Fields Other)
         (context : Context) (m : ProxyManager),
    fst (_get_client_id_from_context context) <> "" ->
    (forall r, fst (prepare_runtime_init_req JobConfig_default pickle_loads pickle_dumps
                      request_iterator) <> Return r) ->
    exists o,
      Datapath JobConfig_default pickle_loads pickle_dumps env channel_ready
               request_iterator context m
      = (o, context, m) /\
      forall s, o <> Return s.
Proof.
  intros env cr it context m Hcid Hprep. unfold Datapath.
  unfold _get_client_id_from_context in *.
  destruct (metadata_get "client_id" (invocation_metadata context)) as [v|];
    simpl in Hcid |- *; [|contradiction].
  destruct (String.eqb v "") eqn:E; simpl in Hcid |- *.
  - apply String.eqb_eq in E. contradiction.
  - rewrite E.
    destruct (prepare_runtime_init_req JobConfig_default pickle_loads pickle_dumps it)
      as [[[req jc]|e|] it']; simpl in Hprep.
    + exfalso. now apply (Hprep (req, jc)).
    + destruct e; eexists; (split; [reflexivity|discriminate]).
    + eexists. split; [reflexivity|discriminate].
Qed.

(** X24.  When the backend does not come up ([start_specific_server]
    returns [False]) the data stream is closed with [ABORTED]; the record of
    the client stays in the manager, with its future resolved, for the
    reaper to remove. *)
Theorem Datapath_aborted_keeps_record :
  forall (env : StartEnv) (channel_ready : Z -> bool)
         (request_iterator request_iterator' : Inbound Fields Other)
         (context : Context) (m m1 : ProxyManager)
         (modified_init_req : DataRequest Fields Other) (job_config : JobConfig),
    fst (_get_client_id_from_context context) <> "" ->
    prepare_runtime_init_req JobConfig_default pickle_loads pickle_dumps request_iterator
    = (Return (modified_init_req, job_config), request_iterator') ->
    start_specific_server env (fst (_get_client_id_from_context context)) job_config m
    = (Return false, m1) ->
    Datapath JobConfig_default pickle_loads pickle_dumps env channel_ready
             request_iterator context m
    = (Return (Closed Fields Other), set_code ABORTED context, m1) /\
    exists server,
      dict_get (fst (_get_client_id_from_context context)) (servers m1) = Some server /\
      resolved (future_store m1) server = true.
Proof.
  intros env cr it it' context m m1 req jc Hcid Hprep Hstart. split.
  - unfold Datapath.
    unfold _get_client_id_from_context in *.
    destruct (metadata_get "client_id" (invocation_metadata context)) as [v|];
      simpl in Hcid, Hstart |- *; [|contradiction].
    destruct (String.eqb v "") eqn:E; simpl in Hcid, Hstart |- *;
      [apply String.eqb_eq in E; contradiction|].
    now rewrite E, Hprep, Hstart.
  - destruct (start_specific_server_returned _ _ _ _ Hstart)
      as (bad & p & good & Hfree & Hbad & Hp & Hb & ->).
    eexists. simpl. split; [apply dict_get_set_same|].
    unfold resolved. simpl. now rewrite future_state_new.
Qed.

(** X25.  When the data stream reaches the splice, the client id is not
    empty and is the only metadata sent on, no status code has been set, and
    the client has a record whose future is resolved and whose channel --
    the one the splice uses -- goes to the record's port and was found
    ready; that port was free before and passed the probe. *)
Theorem Datapath_spliced_backend_ready :
  forall (env : StartEnv) (channel_ready : Z -> bool)
         (request_iterator : Inbound Fields Other)
         (context : Context) (m : ProxyManager)
         (chan : Z) (md : list (string * string)) (s : Splice Fields Other)
         (context' : Context) (m' : ProxyManager),
    Datapath JobConfig_default pickle_loads pickle_dumps env channel_ready
             request_iterator context m
    = (Return (Spliced chan md s), context', m') ->
    let cid := fst (_get_client_id_from_context context) in
    cid <> "" /\ context' = context /\ md = [("client_id", cid)] /\
    exists server,
      dict_get cid (servers m') = Some server /\
      port server = chan /\ channel server = chan /\
      resolved (future_store m') server = true /\
      channel_ready chan = true /\
      In chan (_free_ports m) /\ bind_ok env chan = true.
Proof.
  intros env cr it context m chan md s context' m' H cid. subst cid.
  unfold Datapath in H.
  pose proof (get_client_id_sets_nothing_when_present context) as Hctx.
  destruct (_get_client_id_from_context context) as [cid ctx1]. simpl in *.
  destruct (String.eqb cid "") eqn:E; [discriminate|].
  apply String.eqb_neq in E. specialize (Hctx E). subst ctx1.
  destruct (prepare_runtime_init_req JobConfig_default pickle_loads pickle_dumps it)
    as [[[req jc]|e|] it']; [| destruct e; discriminate | discriminate].
  destruct (start_specific_server env cid jc m) as [[[|]|e|] m1] eqn:Hstart;
    try discriminate.
  destruct (get_channel cr cid m1) as [[ch|]|e|] eqn:G; try discriminate.
  inversion H; subst. repeat split; auto.
  destruct (start_specific_server_returned _ _ _ _ Hstart)
    as (bad & p & good & Hfree & Hbad & Hp & Hb & ->).
  destruct (get_channel_Some _ _ _ G) as (server & Hs & Hc & Hready).
  simpl in Hs. rewrite dict_get_set_same in Hs. inversion Hs; subst server.
  simpl in Hc. subst p.
  eexists. split; [simpl; apply dict_get_set_same|]. simpl.
  repeat split; auto.
  - unfold resolved. simpl. now rewrite future_state_new.
  - rewrite Hfree. apply in_or_app. right. now left.
Qed.

End DatapathFacts.

(** X22 at a stream without metadata whose first message is not even an
    init message. *)
Lemma Datapath_without_client_id_reads_nothing_witness :
  Datapath (nil : Sample.JobConfig) Sample.loads Sample.dumps
           (Sample.env_up 4001) (fun _ => true)
           (Sample.inbound [Sample.data_msg 1]) Sample.no_metadata ProxyManager_init
  = (Return (Closed Z unit), set_code INVALID_ARGUMENT Sample.no_metadata,
     ProxyManager_init).
Proof.
  apply (@Datapath_without_client_id_reads_nothing
           Sample.JobConfig Z unit nil Sample.loads Sample.dumps
           (Sample.env_up 4001) (fun _ => true)
           (Sample.inbound [Sample.data_msg 1]) Sample.no_metadata ProxyManager_init).
  reflexivity.
Defined.

(** X23 at a stream of client ["c1"] whose first message is a data
    message. *)
Lemma Datapath_failed_handshake_starts_nothing_witness :
  exists o,
    Datapath (nil : Sample.JobConfig) Sample.loads Sample.dumps
             (Sample.env_up 4001) (fun _ => true)
             (Sample.inbound [Sample.data_msg 1]) (Sample.with_client_id "c1")
             ProxyManager_init
    = (o, Sample.with_client_id "c1", ProxyManager_init) /\
    forall s, o <> Return s.
Proof.
  apply (@Datapath_failed_handshake_starts_nothing
           Sample.JobConfig Z unit nil Sample.loads Sample.dumps
           (Sample.env_up 4001) (fun _ => true)
           (Sample.inbound [Sample.data_msg 1]) (Sample.with_client_id "c1")
           ProxyManager_init).
  - discriminate.
  - intros r. discriminate.
Defined.

(** X24 at a child that is found exited at the first look. *)
Lemma Datapath_aborted_keeps_record_witness :
  let env := {| bind_ok := fun _ => true; launched := {| pid := 4009 |};
                win32 := false;
                observations := [{| obs_poll := Some 1%Z; obs_cmdline := [] |}];
                final_poll := Some 1%Z |} in
  let context := Sample.with_client_id "c1" in
  let m1 := snd (start_specific_server env "c1" (nil : Sample.JobConfig)
                   ProxyManager_init) in
  Datapath (nil : Sample.JobConfig) Sample.loads Sample.dumps env (fun _ => true)
           (Sample.inbound [Sample.init_msg 7 []]) context ProxyManager_init
  = (Return (Closed Z unit), set_code ABORTED context, m1) /\
  exists server,
    dict_get (fst (_get_client_id_from_context context)) (servers m1) = Some server /\
    resolved (future_store m1) server = true.
Proof.
  intros env context m1.
  apply (@Datapath_aborted_keeps_record
           Sample.JobConfig Z unit nil Sample.loads Sample.dumps
           env (fun _ => true)
           (Sample.inbound [Sample.init_msg 7 []]) (Sample.inbound [])
           context ProxyManager_init m1 (Sample.init_msg 7 []) nil).
  - discriminate.
  - reflexivity.
  - vm_compute. reflexivity.
Defined.

(** X25 at client ["c1"] on a new manager. *)
Lemma Datapath_spliced_backend_ready_witness :
  let context := Sample.with_client_id "c1" in
  let cid := fst (_get_client_id_from_context context) in
  cid <> "" /\ context = context /\ [("client_id", "c1")] = [("client_id", cid)] /\
  exists server,
    dict_get cid (servers Sample.m_ready) = Some server /\
    port server = 23000%Z /\ channel server = 23000%Z /\
    resolved (future_store Sample.m_ready) server = true /\
    (fun _ : Z => true) 23000%Z = true /\
    In 23000%Z (_free_ports ProxyManager_init) /\
    bind_ok (Sample.env_up 4001) 23000%Z = true.
Proof.
  apply (@Datapath_spliced_backend_ready
           Sample.JobConfig Z unit nil Sample.loads Sample.dumps
           (Sample.env_up 4001) (fun _ => true)
           (Sample.inbound [Sample.init_msg 7 []]) (Sample.with_client_id "c1")
           ProxyManager_init 23000%Z [("client_id", "c1")]
           {| to_forward := []; forwarder_done := false;
              queue := [Some (Sample.init_msg 7 [])];
              delivered := []; backend_eof := false |}
           (Sample.with_client_id "c1") Sample.m_ready).
  vm_compute. reflexivity.
Defined.

(** ** The splice queue, again *)

Section SpliceProgress.

Variable Fields Other : Type.

Lemma map_Some_suffix :
  forall (a b : list (DataRequest Fields Other))
         (q : list (option (DataRequest Fields Other))),
    map Some a ++ q = map Some b ++ [None] -> exists l, q = map Some l ++ [None].
Proof.
  induction a as [|x a IH]; intros b q H; simpl in H.
  - now exists b.
  - destruct b as [|y b]; simpl in H; [discriminate|].
    inversion H as [[Hxy Hrest]]. now apply (IH b).
Qed.

Lemma step_eof_stays :
  forall a (s s' : Splice Fields Other),
    backend_eof s = true -> step a s = Some s' -> backend_eof s' = true.
Proof.
  intros a s s' He H. destruct a; simpl in H.
  - destruct (forwarder_done s); [discriminate|].
    destruct (to_forward s); inversion H; subst; exact He.
  - rewrite He in H. discriminate.
Qed.

Lemma run_eof_stays :
  forall schedule (s : Splice Fields Other),
    backend_eof s = true -> backend_eof (run schedule s) = true.
Proof.
  induction schedule as [|a schedule IH]; intros s He; simpl; [exact He|].
  apply IH. destruct (step a s) as [s'|] eqn:E; [|exact He].
  eapply step_eof_stays; eauto.
Qed.

Lemma forwarder_done_rests :
  forall n (s : Splice Fields Other),
    forwarder_done s = true -> run (repeat Forwarder n) s = s.
Proof.
  induction n as [|n IH]; intros s Hd; simpl; [reflexivity|].
  rewrite Hd. now apply IH.
Qed.

Lemma backend_reads_with_steps_to_spare :
  forall n (l : list (DataRequest Fields Other)) t (s : Splice Fields Other),
    queue s = map Some l ++ None :: t ->
    backend_eof s = false ->
    (List.length l < n)%nat ->
    backend_eof (run (repeat Backend n) s) = true.
Proof.
  intros n l t s Hq He Hn.
  replace n with (S (List.length l) + (n - S (List.length l)))%nat by lia.
  rewrite repeat_app, run_app. apply run_eof_stays.
  now apply backend_reads_to_the_sentinel with (t := t).
Qed.

(** From a state that carries [expected], the forwarder run to its end and
    the backend stream then reading bring the whole of [expected]. *)
Lemma carries_finishes :
  forall expected (s : Splice Fields Other),
    carries expected s ->
    backend_eof (run (forwarder_first s) s) = true.
Proof.
  intros expected s Hc. unfold forwarder_first. rewrite run_app.
  destruct (backend_eof s) eqn:He.
  - apply run_eof_stays, run_eof_stays. exact He.
  - unfold carries, upcoming in Hc. rewrite He in Hc.
    destruct (forwarder_done s) eqn:Hd.
    + rewrite forwarder_done_rests by assumption.
      rewrite app_nil_r in Hc.
      destruct (map_Some_suffix _ _ _ Hc) as [l Hl].
      apply backend_reads_with_steps_to_spare with (l := l) (t := []); auto.
      rewrite Hl, length_app, length_map. simpl. lia.
    + rewrite (@forwarder_runs_to_its_end _ _ false (to_forward s) s eq_refl Hd).
      unfold forward_streaming_requests. cbn [messages].
      destruct (map_Some_suffix _ _ _ Hc) as [l Hl].
      apply backend_reads_with_steps_to_spare with (l := l) (t := []); simpl; auto.
      apply (f_equal (@List.length _)) in Hl.
      rewrite !length_app, !length_map in Hl. simpl in Hl. lia.
Qed.

(** X26.  The splice cannot get stuck and loses nothing.  Start with any
    messages on the queue and any inbound messages, and let the forwarder
    and the backend stream take turns in any order for any time.  From
    where they have got, letting the forwarder finish and the backend
    stream read on ends the backend stream, which has then read the queued
    messages followed by the inbound ones, each once and in order. *)
Theorem splice_always_delivers_everything :
  forall (queued inbound : list (DataRequest Fields Other)) (schedule : list Actor),
    let s0 := {| to_forward := inbound; forwarder_done := false;
                 queue := map Some queued; delivered := [];
                 backend_eof := false |} in
    let s := run schedule s0 in
    let final := run (forwarder_first s) s in
    backend_eof final = true /\ delivered final = queued ++ inbound.
Proof.
  intros queued inbound schedule s0 s final.
  assert (H0 : carries (queued ++ inbound) s0).
  { unfold carries, upcoming, s0. simpl. now rewrite map_app, <- app_assoc. }
  assert (Hs : carries (queued ++ inbound) s) by (now apply run_carries).
  assert (He : backend_eof final = true)
    by (now apply carries_finishes with (expected := queued ++ inbound)).
  split; [exact He|].
  assert (Hf : carries (queued ++ inbound) final) by (now apply run_carries).
  unfold carries in Hf. now rewrite He in Hf.
Qed.

End SpliceProgress.

(** ** The log stream *)

Section LogstreamFacts.

Variable LogRequest : Type.

Lemma retry_all_fail :
  forall channel_ready view client_id n i,
    (forall j, (i <= j < i + n)%nat ->
               get_channel (channel_ready j) client_id (view j) = Return None) ->
    LogstreamServicerProxy.retry channel_ready view client_id n i = (Return None, n).
Proof.
  intros cr view cid. induction n as [|n IH]; intros i H; simpl; [reflexivity|].
  rewrite H by lia. rewrite IH; [reflexivity|]. intros j Hj. apply H. lia.
Qed.

Lemma retry_first_success :
  forall channel_ready view client_id k n i chan,
    (k < n)%nat ->
    (forall j, (i <= j < i + k)%nat ->
               get_channel (channel_ready j) client_id (view j) = Return None) ->
    get_channel (channel_ready (i + k)%nat) client_id (view (i + k)%nat)
    = Return (Some chan) ->
    LogstreamServicerProxy.retry channel_ready view client_id n i
    = (Return (Some chan), k).
Proof.
  intros cr view cid. induction k as [|k IH]; intros n i chan Hk Hfail Hok.
  - destruct n as [|n]; [lia|]. simpl. rewrite Nat.add_0_r in Hok. now rewrite Hok.
  - destruct n as [|n]; [lia|]. simpl. rewrite Hfail by lia.
    rewrite (IH n (S i) chan); [reflexivity|lia| |].
    + intros j Hj. apply Hfail. lia.
    + now replace (S i + k)%nat with (i + S k)%nat by lia.
Qed.

Lemma retry_sleeps_bound :
  forall channel_ready view client_id n i,
    (snd (LogstreamServicerProxy.retry channel_ready view client_id n i) <= n)%nat.
Proof.
  intros cr view cid. induction n as [|n IH]; intros i; simpl; [lia|].
  destruct (get_channel (cr i) cid (view i)) as [[ch|]|e|]; simpl; try lia.
  specialize (IH (S i)).
  destruct (LogstreamServicerProxy.retry cr view cid n (S i)). simpl in *. lia.
Qed.

(** X27.  A log stream whose client has no ready backend at any of five
    attempts is closed with [NOT_FOUND].  It has then slept five times, the
    fifth time after the last attempt. *)
Theorem Logstream_gives_up_after_five :
  forall (channel_ready : nat -> Z -> bool) (view : nat -> ProxyManager)
         (request_iterator : list LogRequest) (context : Context),
    fst (_get_client_id_from_context context) <> "" ->
    (forall j, (j < 5)%nat ->
               get_channel (channel_ready j) (fst (_get_client_id_from_context context))
                           (view j) = Return None) ->
    LogstreamServicerProxy.Logstream channel_ready view request_iterator context
    = (Return (LogstreamServicerProxy.Closed LogRequest),
       set_code NOT_FOUND context, 5%nat).
Proof.
  intros cr view it context Hcid Hfail. unfold LogstreamServicerProxy.Logstream.
  pose proof (get_client_id_sets_nothing_when_present context Hcid) as Hctx.
  destruct (_get_client_id_from_context context) as [cid ctx1].
  cbn [fst snd] in *. subst ctx1.
  destruct (String.eqb cid "") eqn:E; [apply String.eqb_eq in E; contradiction|].
  rewrite retry_all_fail; [reflexivity|]. intros j Hj. apply Hfail. lia.
Qed.

(** X28.  The first attempt that finds a channel decides: the log stream is
    spliced to that channel with the client id as metadata, after one sleep
    for every attempt that failed before.  The queue starts empty, no
    status code is set, and the inbound messages are left to the
    forwarder. *)
Theorem Logstream_first_channel_wins :
  forall (channel_ready : nat -> Z -> bool) (view : nat -> ProxyManager)
         (request_iterator : list LogRequest) (context : Context)
         (k : nat) (chan : Z),
    fst (_get_client_id_from_context context) <> "" ->
    (k < 5)%nat ->
    (forall j, (j < k)%nat ->
               get_channel (channel_ready j) (fst (_get_client_id_from_context context))
                           (view j) = Return None) ->
    get_channel (channel_ready k) (fst (_get_client_id_from_context context)) (view k)
    = Return (Some chan) ->
    LogstreamServicerProxy.Logstream channel_ready view request_iterator context
    = (Return (LogstreamServicerProxy.Spliced chan
                 [("client_id", fst (_get_client_id_from_context context))]
                 request_iterator []),
       context, k).
Proof.
  intros cr view it context k chan Hcid Hk Hfail Hok.
  unfold LogstreamServicerProxy.Logstream.
  pose proof (get_client_id_sets_nothing_when_present context Hcid) as Hctx.
  destruct (_get_client_id_from_context context) as [cid ctx1].
  cbn [fst snd] in *. subst ctx1.
  destruct (String.eqb cid "") eqn:E; [apply String.eqb_eq in E; contradiction|].
  rewrite (@retry_first_success cr view cid k 5 0 chan); auto.
  intros j Hj. apply Hfail. lia.
Qed.

(** X29.  A log stream never sleeps more than five times, and one without
    client id is closed at once with [INVALID_ARGUMENT]: no channel is
    looked up and nothing is slept. *)
Theorem Logstream_without_client_id :
  forall (channel_ready : nat -> Z -> bool) (view : nat -> ProxyManager)
         (request_iterator : list LogRequest) (context : Context),
    (snd (LogstreamServicerProxy.Logstream channel_ready view request_iterator context)
     <= 5)%nat /\
    (fst (_get_client_id_from_context context) = "" ->
     LogstreamServicerProxy.Logstream channel_ready view request_iterator context
     = (Return (LogstreamServicerProxy.Closed LogRequest),
        set_code INVALID_ARGUMENT context, 0%nat)).
Proof.
  intros cr view it context. unfold LogstreamServicerProxy.Logstream.
  pose proof (get_client_id_missing context) as Hmiss.
  pose proof (retry_sleeps_bound cr view
                (fst (_get_client_id_from_context context)) 5 0) as Hb.
  unfold _get_client_id_from_context in *.
  destruct (metadata_get "client_id" (invocation_metadata context)) as [v|];
    cbn [fst snd] in *.
  - destruct (String.eqb v "") eqn:E; cbn [fst snd] in *.
    + rewrite E. split; [cbn; lia|]. intros _. reflexivity.
    + rewrite E. split.
      * destruct (LogstreamServicerProxy.retry cr view v 5 0) as [[[ch|]|e|] n];
          cbn [fst snd] in *; lia.
      * intros ->. discriminate.
  - split; [cbn; lia|]. reflexivity.
Qed.

End LogstreamFacts.

(** X27 at a client that never gets a record. *)
Lemma Logstream_gives_up_after_five_witness :
  LogstreamServicerProxy.Logstream (fun _ _ => true) (fun _ => ProxyManager_init)
    ["tail"] (Sample.with_client_id "c1")
  = (Return (LogstreamServicerProxy.Closed string),
     set_code NOT_FOUND (Sample.with_client_id "c1"), 5%nat).
Proof.
  apply (@Logstream_gives_up_after_five string (fun _ _ => true)
           (fun _ => ProxyManager_init) ["tail"] (Sample.with_client_id "c1")).
  - discriminate.
  - intros j Hj. reflexivity.
Defined.

(** X28 at a client whose backend is there from the third attempt on. *)
Lemma Logstream_first_channel_wins_witness :
  let view := fun j => if (j <? 2)%nat then ProxyManager_init else Sample.m_ready in
  LogstreamServicerProxy.Logstream (fun _ _ => true) view
    ["tail"] (Sample.with_client_id "c1")
  = (Return (LogstreamServicerProxy.Spliced 23000
               [("client_id", fst (_get_client_id_from_context
                                     (Sample.with_client_id "c1")))]
               ["tail"] []),
     Sample.with_client_id "c1", 2%nat).
Proof.
  intros view.
  apply (@Logstream_first_channel_wins string (fun _ _ => true) view
           ["tail"] (Sample.with_client_id "c1") 2%nat 23000%Z).
  - discriminate.
  - lia.
  - intros j Hj. unfold view.
    destruct (j <? 2)%nat eqn:E; [reflexivity|]. apply Nat.ltb_ge in E. lia.
  - vm_compute. reflexivity.
Defined.

(** X29 at a log stream without metadata. *)
Lemma Logstream_without_client_id_witness :
  LogstreamServicerProxy.Logstream (fun _ _ => true) (fun _ => Sample.m_ready)
    ["tail"] Sample.no_metadata
  = (Return (LogstreamServicerProxy.Closed string),
     set_code INVALID_ARGUMENT Sample.no_metadata, 0%nat).
Proof.
  apply (proj2 (@Logstream_without_client_id string (fun _ _ => true)
                  (fun _ => Sample.m_ready) ["tail"] Sample.no_metadata)).
  reflexivity.
Defined.

(** ** The session directory *)

(** X30.  The session directory is looked up at most once.  A manager that
    knows its session directory (from the constructor or from an earlier
    call) returns it without connecting to the cluster.  One that does not
    connects and disconnects once and, when the directory it is told is not
    empty, keeps it: the next call returns the same directory and makes no
    connection. *)
Theorem session_dir_is_looked_up_once :
  forall (connect : string -> string) (s : Session),
    let r := _get_session_dir connect s in
    let d := fst (fst r) in
    let s1 := snd (fst r) in
    (_session_dir s <> "" -> r = (_session_dir s, s, [])) /\
    (_session_dir s = "" ->
     r = (connect (redis_address s),
          {| redis_address := redis_address s;
             _session_dir := connect (redis_address s) |},
          [ray_init (redis_address s); ray_shutdown])) /\
    (d <> "" -> _get_session_dir connect s1 = (d, s1, [])) /\
    redis_address s1 = redis_address s.
Proof.
  intros connect s r d s1. subst r d s1. unfold _get_session_dir.
  destruct (String.eqb (_session_dir s) "") eqn:E; simpl.
  - apply String.eqb_eq in E. repeat split; try congruence.
    intros Hd. apply String.eqb_neq in Hd. now rewrite Hd.
  - pose proof E as E'. apply String.eqb_neq in E'. repeat split; try congruence.
    intros _. now rewrite E.
Qed.

(** The theorem at a manager built without session directory, twice asked. *)
Lemma session_dir_is_looked_up_once_witness :
  let connect := fun _ : string => "/tmp/ray/session_1" in
  let s := Session_init "127.0.0.1:6379" None in
  _get_session_dir connect (snd (fst (_get_session_dir connect s)))
  = ("/tmp/ray/session_1",
     {| redis_address := "127.0.0.1:6379"; _session_dir := "/tmp/ray/session_1" |},
     []).
Proof.
  intros connect s.
  apply (proj1 (proj2 (proj2 (@session_dir_is_looked_up_once connect s)))).
  discriminate.
Defined.

(** ** The theorems without premise of their own, at concrete inputs *)

(** X2 at a pool of two ports that are both taken. *)
Lemma get_unused_port_returns_iff_some_port_binds_witness :
  fst (_get_unused_port (fun _ => false)
         {| servers := []; _free_ports := [23000; 23001]%Z; future_store := [] |})
  = Raise unused_port_error.
Proof.
  apply (proj2 (proj2 (@get_unused_port_returns_iff_some_port_binds (fun _ => false)
           {| servers := []; _free_ports := [23000; 23001]%Z; future_store := [] |}))).
  reflexivity.
Defined.

(** X5 after two clients have started. *)
Lemma ports_of_clients_never_collide_witness :
  port {| port := 23000; process_handle_future := 0; channel := 23000 |}
  <> port {| port := 23001; process_handle_future := 1; channel := 23001 |}.
Proof.
  apply (proj1 (proj2 (@ports_of_clients_never_collide
                         [op_start (Sample.env_up 4001) "c1";
                          op_start (Sample.env_up 4002) "c2"])) "c1" "c2").
  - reflexivity.
  - reflexivity.
  - discriminate.
Defined.

(** X8 at a child that still shows the shim when the observations end. *)
Lemma waiting_start_has_installed_its_record_witness :
  let env := {| bind_ok := fun _ => true; launched := {| pid := 4009 |};
                win32 := false;
                observations := [{| obs_poll := None;
                                    obs_cmdline := ["python"; "shim.py"] |}];
                final_poll := None |} in
  let r := start_specific_server env "c1" tt ProxyManager_init in
  all_taken (bind_ok env) (_free_ports ProxyManager_init) = false /\
  win32 env = false /\
  wait_loop (observations env) 0 = None /\
  exists server,
    dict_get "c1" (servers (snd r)) = Some server /\
    In (port server) (_free_ports ProxyManager_init) /\
    bind_ok env (port server) = true /\
    process_handle (future_store (snd r)) server = Blocked.
Proof.
  intros env r.
  apply (proj1 (@waiting_start_has_installed_its_record env "c1" ProxyManager_init)).
  reflexivity.
Defined.

(** X10 at a client whose start is between its lock block and
    [set_result]. *)
Lemma get_channel_blocks_iff_unresolved_witness :
  get_channel (fun _ => true) "a" Sample.m_pending = Blocked.
Proof.
  apply (proj2 (proj1 (proj2 (@get_channel_blocks_iff_unresolved
                                (fun _ => true) "a" Sample.m_pending)))).
  exists {| port := 23000; process_handle_future := 0; channel := 23000 |}.
  split; reflexivity.
Defined.

(** X19 at a [KVPut] of client ["c1"], whose backend is up. *)
Lemma servicer_calls_only_own_backend_witness :
  let context := Sample.with_client_id "c1" in
  (0%Z, "key") = (0%Z, "key") /\
  [("client_id", "c1")] = [("client_id", fst (_get_client_id_from_context context))] /\
  exists server,
    dict_get (fst (_get_client_id_from_context context)) (servers Sample.m_ready)
    = Some server /\
    channel server = 23000%Z.
Proof.
  intros context.
  apply (proj2 (@servicer_calls_only_own_backend
                  Sample.Request Sample.Response fst Sample.PING (fun json => json)
                  (fun _ => true) Sample.echo_backend
                  rpc_KVPut Sample.m_ready (0%Z, "key") context)
           23000%Z "KVPut" (0%Z, "key") [("client_id", "c1")]).
  right. left. reflexivity.
Defined.

(** X21 at a context that carries the client id ["c1"]. *)
Lemma get_client_id_sets_INVALID_ARGUMENT_iff_empty_witness :
  let context := Sample.with_client_id "c1" in
  snd (_get_client_id_from_context context) = context /\
  metadata_get "client_id" (invocation_metadata context)
  = Some (fst (_get_client_id_from_context context)).
Proof.
  intros context.
  apply (proj2 (proj2 (proj2 (@get_client_id_sets_INVALID_ARGUMENT_iff_empty context)))).
  discriminate.
Defined.
